(** * malunal.tooling: the CMake wrapper [build.py]

    A shallow embedding of [build.py] and of the part of Python's
    [argparse] (CPython 3.11, [Lib/argparse.py]) that the script's parser
    exercises, followed by the properties of the wrapper.

    Strings are Rocq [string]s (sequences of 8-bit characters); integers
    are [Z].  The processes the script starts are an explicit operating
    system state that is threaded through the run, and everything the
    script does that can be observed from outside is recorded as a trace of
    events. *)

From Stdlib Require Import String Ascii List ZArith Bool Arith Lia DecimalString.
Import ListNotations.
Open Scope string_scope.

(** ** Python values and string methods *)

Module Py.

(** The values that reach the [threads] attribute or go through
    [_get_values]: a [bool], an [int], [None], a [str], or a list of [str]. *)
Inductive value : Type :=
| PyBool (b : bool)
| PyInt (z : Z)
| PyNone
| PyStr (s : string)
| PyList (l : list string).

(** [bool] is a subclass of [int]: [True] is 1 and [False] is 0. *)
Definition int_of_bool (b : bool) : Z := if b then 1%Z else 0%Z.

(** [v == w] *)
Definition eq (v w : value) : bool :=
  match v, w with
  | PyBool a, PyBool b => Bool.eqb a b
  | PyBool a, PyInt z | PyInt z, PyBool a => Z.eqb z (int_of_bool a)
  | PyInt y, PyInt z => Z.eqb y z
  | PyNone, PyNone => true
  | PyStr s, PyStr t => String.eqb s t
  | PyList l, PyList m => if list_eq_dec string_dec l m then true else false
  | _, _ => false
  end.

Definition newline : ascii := "010"%char.
Definition dquote : ascii := "034"%char.
Definition squote : ascii := "039"%char.

Definition str1 (c : ascii) : string := String c EmptyString.

(** [repr] of a [str] without quotes, backslashes or control characters. *)
Definition repr (s : string) : string := str1 squote ++ s ++ str1 squote.

(** [str(v)], which is what an f-string field [{v}] inserts. *)
Definition str (v : value) : string :=
  match v with
  | PyBool b => if b then "True" else "False"
  | PyInt z => NilZero.string_of_int (Z.to_int z)
  | PyNone => "None"
  | PyStr s => s
  | PyList l => "[" ++ String.concat ", " (map repr l) ++ "]"
  end.

(** [sep.join(l)] *)
Definition join (sep : string) (l : list string) : string := String.concat sep l.

(** [s.startswith(p)] *)
Definition startswith (s p : string) : bool := String.prefix p s.

(** [c in s] for a single character [c] *)
Fixpoint contains (c : ascii) (s : string) : bool :=
  match s with
  | EmptyString => false
  | String d s' => Ascii.eqb c d || contains c s'
  end.

(** [s.split(c, 1)] when [c in s]: the text before the first [c] and the
    text after it. *)
Fixpoint split1 (c : ascii) (s : string) : option (string * string) :=
  match s with
  | EmptyString => None
  | String d s' =>
      if Ascii.eqb c d then Some (EmptyString, s')
      else match split1 c s' with
           | Some (l, r) => Some (String d l, r)
           | None => None
           end
  end.

(** [s.rstrip("\n")] *)
Fixpoint rstrip_newline (s : string) : string :=
  match s with
  | EmptyString => EmptyString
  | String c s' =>
      match rstrip_newline s' with
      | EmptyString => if Ascii.eqb c newline then EmptyString else str1 c
      | t => String c t
      end
  end.

(** [l.remove(x)] inside [try: ... except ValueError: pass]: the first
    occurrence goes, a list without [x] stays as it is. *)
Fixpoint remove_first (x : string) (l : list string) : list string :=
  match l with
  | [] => []
  | y :: l' => if String.eqb y x then l' else y :: remove_first x l'
  end.

Definition is_digit (c : ascii) : bool :=
  (48 <=? nat_of_ascii c)%nat && (nat_of_ascii c <=? 57)%nat.

Fixpoint all_digits (s : string) : bool :=
  match s with
  | EmptyString => true
  | String c s' => is_digit c && all_digits s'
  end.

(** [\d+] over the whole of [s] *)
Definition digits1 (s : string) : bool :=
  match s with
  | EmptyString => false
  | _ => all_digits s
  end.

(** [\d*\.\d+] over the whole of [s] *)
Fixpoint decimal_fraction (s : string) : bool :=
  match s with
  | EmptyString => false
  | String c s' =>
      if Ascii.eqb c "."%char then digits1 s'
      else is_digit c && decimal_fraction s'
  end.

(** [s] without one final newline, when it has one: in a Python regular
    expression [$] matches at the end of the string and also just before
    a newline that ends it. *)
Fixpoint chomp (s : string) : option string :=
  match s with
  | EmptyString => None
  | String c s' =>
      match s' with
      | EmptyString => if Ascii.eqb c newline then Some EmptyString else None
      | _ => match chomp s' with
             | Some t => Some (String c t)
             | None => None
             end
      end
  end.

Definition ends (body : string -> bool) (s : string) : bool :=
  body s || match chomp s with Some t => body t | None => false end.

End Py.

Import Py.

(** ** argparse *)

Module Argparse.

Inductive Nargs : Type :=
| nargs_0      (** [nargs=0]: what [store_true] and [help] actions have *)
| OPTIONAL.    (** [nargs='?'] *)

Inductive ActionClass : Type :=
| _HelpAction
| _StoreTrueAction
| _StoreAction.

(** The attribute of the namespace an action writes. *)
Inductive Dest : Type :=
| d_help | d_configure | d_release | d_install | d_threads | d_example.

(** [default] is [None] for [argparse.SUPPRESS], the default of the help
    action: no attribute is set for it. *)
Record Action : Type := mkAction {
  option_strings : list string;
  dest : Dest;
  nargs : Nargs;
  const : Py.value;
  default : option Py.value;
  class : ActionClass
}.

(** What [parser.parse_args()] returns: one attribute per [dest]. *)
Record Namespace : Type := mkNamespace {
  configure : Py.value;
  release : Py.value;
  install : Py.value;
  threads : Py.value;
  example : Py.value
}.

Definition setattr (namespace : Namespace) (d : Dest) (v : Py.value) : Namespace :=
  match d with
  | d_help => namespace
  | d_configure =>
      mkNamespace v (release namespace) (install namespace) (threads namespace) (example namespace)
  | d_release =>
      mkNamespace (configure namespace) v (install namespace) (threads namespace) (example namespace)
  | d_install =>
      mkNamespace (configure namespace) (release namespace) v (threads namespace) (example namespace)
  | d_threads =>
      mkNamespace (configure namespace) (release namespace) (install namespace) v (example namespace)
  | d_example =>
      mkNamespace (configure namespace) (release namespace) (install namespace) (threads namespace) v
  end.

Inductive ArgumentError : Type :=
| ambiguous_option (option : string) (matches : list string)
| ignored_explicit_argument (action : Action) (explicit_arg : string)
| unexpected_option_string (option_string : string)
| unrecognized_arguments (argv : list string).

(** How a call that does not return ends: [parser.error(message)] prints
    the usage and the message on stderr and exits with status 2, the help
    action prints the help on stdout and exits with status 0. *)
Inductive Exit : Type :=
| error (message : ArgumentError)
| help_exit.

Definition Result (A : Type) : Type := (Exit + A)%type.

(** [(action, option_string, explicit_arg)] *)
Definition option_tuple : Type := (option Action * string * option string)%type.

(** One command-line string with its letter in [arg_strings_pattern]:
    ['A'] for an argument, ['-'] for the first [--], ['O'] for an option,
    which comes with its entry of [option_string_indices]. *)
Inductive item : Type :=
| item_A (arg_string : string)
| item_dash (arg_string : string)
| item_O (arg_string : string) (t : option_tuple).

Definition arg_string_of (i : item) : string :=
  match i with
  | item_A s | item_dash s | item_O s _ => s
  end.

Definition pattern_letter (i : item) : ascii :=
  match i with
  | item_A _ => "A"%char
  | item_dash _ => "-"%char
  | item_O _ _ => "O"%char
  end.

Fixpoint arg_strings_pattern (items : list item) : string :=
  match items with
  | [] => EmptyString
  | i :: items' => String (pattern_letter i) (arg_strings_pattern items')
  end.

Section ArgumentParser.

(** [self._actions], in the order of the [add_argument] calls, after the
    help action that [ArgumentParser()] adds itself. *)
Variable self : list Action.

Definition prefix_chars : string := "-".

Definition _option_string_actions : list (string * Action) :=
  flat_map (fun action => map (fun s => (s, action)) (option_strings action)) self.

Fixpoint lookup (key : string) (d : list (string * Action)) : option Action :=
  match d with
  | [] => None
  | (k, action) :: d' => if String.eqb k key then Some action else lookup key d'
  end.

(** [self._negative_number_matcher]: [^-\d+$|^-\d*\.\d+$], with the ASCII
    digits for [\d]. *)
Definition _negative_number_matcher (s : string) : bool :=
  match s with
  | String c body =>
      Ascii.eqb c "-"%char && (Py.ends Py.digits1 body || Py.ends Py.decimal_fraction body)
  | EmptyString => false
  end.

(** Set by [add_argument] when an option string looks like a negative
    number. *)
Definition _has_negative_number_optionals : bool :=
  existsb (fun kv => _negative_number_matcher (fst kv)) _option_string_actions.

Definition _get_option_tuples (option_string : string) : Result (list option_tuple) :=
  match option_string with
  | String c0 (String c1 short_explicit_arg) =>
      if Py.contains c0 prefix_chars && Py.contains c1 prefix_chars then
        (* allow_abbrev is True *)
        let '(option_prefix, explicit_arg) :=
          match Py.split1 "="%char option_string with
          | Some (p, e) => (p, Some e)
          | None => (option_string, None)
          end in
        inr (flat_map
               (fun kv : string * Action =>
                  if Py.startswith (fst kv) option_prefix
                  then [(Some (snd kv), fst kv, explicit_arg)] else [])
               _option_string_actions)
      else if Py.contains c0 prefix_chars && negb (Py.contains c1 prefix_chars) then
        let option_prefix := option_string in
        let short_option_prefix := String c0 (String c1 EmptyString) in
        inr (flat_map
               (fun kv : string * Action =>
                  if String.eqb (fst kv) short_option_prefix
                  then [(Some (snd kv), fst kv, Some short_explicit_arg)]
                  else if Py.startswith (fst kv) option_prefix
                  then [(Some (snd kv), fst kv, None)] else [])
               _option_string_actions)
      else inl (error (unexpected_option_string option_string))
  | _ => inl (error (unexpected_option_string option_string))
  end.

(** [None] for a string that is meant to be a positional, otherwise the
    option tuple; an ambiguous abbreviation is an error at once. *)
Definition _parse_optional (arg_string : string) : Result (option option_tuple) :=
  match arg_string with
  | EmptyString => inr None
  | String c0 tail =>
      if negb (Py.contains c0 prefix_chars) then inr None
      else
        match lookup arg_string _option_string_actions with
        | Some action => inr (Some (Some action, arg_string, None))
        | None =>
            match tail with
            | EmptyString => inr None
            | _ =>
                let with_equals :=
                  match Py.split1 "="%char arg_string with
                  | Some (option_string, explicit_arg) =>
                      match lookup option_string _option_string_actions with
                      | Some action => Some (Some action, option_string, Some explicit_arg)
                      | None => None
                      end
                  | None => None
                  end in
                match with_equals with
                | Some t => inr (Some t)
                | None =>
                    match _get_option_tuples arg_string with
                    | inl e => inl e
                    | inr (t1 :: t2 :: more) =>
                        inl (error (ambiguous_option arg_string
                                      (map (fun t : option_tuple => snd (fst t))
                                           (t1 :: t2 :: more))))
                    | inr [t] => inr (Some t)
                    | inr [] =>
                        if _negative_number_matcher arg_string
                           && negb _has_negative_number_optionals
                        then inr None
                        else if Py.contains " "%char arg_string then inr None
                        else inr (Some (None, arg_string, None))
                    end
                end
            end
        end
  end.

(** The first loop of [_parse_known_args]: every string gets its letter,
    and everything after the first [--] is an argument. *)
Fixpoint classify (arg_strings : list string) : Result (list item) :=
  match arg_strings with
  | [] => inr []
  | arg_string :: rest =>
      if String.eqb arg_string "--" then inr (item_dash arg_string :: map item_A rest)
      else
        match _parse_optional arg_string with
        | inl e => inl e
        | inr parsed =>
            match classify rest with
            | inl e => inl e
            | inr items =>
                inr (match parsed with
                     | None => item_A arg_string
                     | Some t => item_O arg_string t
                     end :: items)
            end
        end
  end.

(** [_match_argument]: the number of strings that the action's nargs
    pattern takes at the start of the pattern; for an option that is [()]
    when nargs is 0 and [(A?)] when nargs is ['?'], and both always
    match. *)
Definition _match_argument (action : Action) (pattern : string) : nat :=
  match nargs action with
  | nargs_0 => 0
  | OPTIONAL => if Py.startswith pattern "A" then 1 else 0
  end.

Definition _get_values (action : Action) (arg_strings : list string) : Py.value :=
  let arg_strings := Py.remove_first "--" arg_strings in
  match nargs action, arg_strings with
  | OPTIONAL, [] =>
      match option_strings action with
      | [] => match default action with Some v => v | None => PyNone end
      | _ => const action
      end
  | OPTIONAL, [arg_string] => PyStr arg_string
  | _, _ => PyList arg_strings
  end.

(** [take_action]: the values are computed and the action is called. *)
Definition take_action (namespace : Namespace) (action : Action)
    (argument_strings : list string) : Result Namespace :=
  let argument_values := _get_values action argument_strings in
  match class action with
  | _HelpAction => inl help_exit
  | _StoreTrueAction => inr (setattr namespace (dest action) (const action))
  | _StoreAction => inr (setattr namespace (dest action) argument_values)
  end.

Definition action_tuple : Type := (Action * list string * string)%type.

Fixpoint take_actions (namespace : Namespace) (action_tuples : list action_tuple)
  : Result Namespace :=
  match action_tuples with
  | [] => inr namespace
  | (action, args, _) :: more =>
      match take_action namespace action args with
      | inl e => inl e
      | inr namespace' => take_actions namespace' more
      end
  end.

(** The branch of [consume_optional] without an explicit argument: the
    action takes its arguments from the strings that follow. *)
Definition consume_following (action : Action) (option_string : string)
    (following : list item) (action_tuples : list action_tuple)
  : Result (list action_tuple * nat) :=
  let arg_count := _match_argument action (arg_strings_pattern following) in
  let args := firstn arg_count (map arg_string_of following) in
  inr ((action_tuples ++ [(action, args, option_string)])%list, arg_count).

(** The loop of [consume_optional] while there is an explicit argument:
    [-xyz] is [-x -y -z] when [-x] and [-y] take no argument. *)
Fixpoint consume_explicit (action : Action) (option_string explicit_arg : string)
    (following : list item) (action_tuples : list action_tuple)
  : Result (list action_tuple * nat) :=
  let arg_count := _match_argument action "A" in
  let single_dash :=
    match option_string with
    | String _ (String c1 _) => negb (Py.contains c1 prefix_chars)
    | _ => false
    end in
  match explicit_arg with
  | String c new_explicit_arg =>
      if (arg_count =? 0)%nat && single_dash then
        let action_tuples := (action_tuples ++ [(action, [], option_string)])%list in
        let option_string' :=
          match option_string with
          | String char _ => String char (String c EmptyString)
          | EmptyString => String c EmptyString
          end in
        match lookup option_string' _option_string_actions with
        | Some action' =>
            match new_explicit_arg with
            | EmptyString => consume_following action' option_string' following action_tuples
            | _ => consume_explicit action' option_string' new_explicit_arg
                     following action_tuples
            end
        | None => inl (error (ignored_explicit_argument action explicit_arg))
        end
      else if (arg_count =? 1)%nat then
        inr ((action_tuples ++ [(action, [explicit_arg], option_string)])%list, 0)
      else inl (error (ignored_explicit_argument action explicit_arg))
  | EmptyString =>
      if (arg_count =? 1)%nat then
        inr ((action_tuples ++ [(action, [explicit_arg], option_string)])%list, 0)
      else inl (error (ignored_explicit_argument action explicit_arg))
  end.

(** The main loop of [_parse_known_args] for a parser without positional
    arguments: [consume_positionals] takes nothing, so a string that is
    not an option and that no option takes goes to [extras]. *)
Fixpoint consume (items : list item) (namespace : Namespace) (extras : list string)
  : Result (Namespace * list string) :=
  match items with
  | [] => inr (namespace, extras)
  | item_A s :: rest | item_dash s :: rest => consume rest namespace (extras ++ [s])%list
  | item_O s (None, _, _) :: rest => consume rest namespace (extras ++ [s])%list
  | item_O s (Some action, option_string, explicit_arg) :: rest =>
      match
        match explicit_arg with
        | Some e => consume_explicit action option_string e rest []
        | None => consume_following action option_string rest []
        end
      with
      | inl e => inl e
      | inr (action_tuples, arg_count) =>
          match take_actions namespace action_tuples with
          | inl e => inl e
          | inr namespace' =>
              match arg_count, rest with
              | S _, _ :: rest' => consume rest' namespace' extras
              | _, _ => consume rest namespace' extras
              end
          end
      end
  end.

Definition action_of (t : action_tuple) : Action := fst (fst t).



(** Items that no option can take: the first [--] and the strings that
    look like options and are none. *)
Definition stray (it : item) : bool :=
  match it with
  | item_dash _ => true
  | item_O _ (None, _, _) => true
  | _ => false
  end.

(** [Namespace()] before the defaults are set: an attribute that no action
    with a default sets stays at this placeholder. *)
Definition empty_namespace : Namespace :=
  mkNamespace PyNone PyNone PyNone PyNone PyNone.

Definition defaults : Namespace :=
  fold_left
    (fun namespace action =>
       match default action with
       | Some v => setattr namespace (dest action) v
       | None => namespace
       end)
    self empty_namespace.

Definition parse_known_args (args : list string) : Result (Namespace * list string) :=
  match classify args with
  | inl e => inl e
  | inr items => consume items defaults []
  end.

Definition parse_args (args : list string) : Result Namespace :=
  match parse_known_args args with
  | inl e => inl e
  | inr (namespace, []) => inr namespace
  | inr (_, argv) => inl (error (unrecognized_arguments argv))
  end.

End ArgumentParser.

(** [ArgumentParser()]: [add_help] is True, so the parser starts with the
    help action. *)
Definition ArgumentParser : list Action :=
  [mkAction ["-h"; "--help"] d_help nargs_0 PyNone None _HelpAction].

(** [parser.add_argument] with [action="store_true"]; nargs is 0 and
    [const] is [True]. *)
Definition store_true (option_strings : list string) (default : Py.value) (dest : Dest)
  : Action :=
  mkAction option_strings dest nargs_0 (PyBool true) (Some default) _StoreTrueAction.

(** [parser.add_argument] with [action="store"]; [const] is not given and
    is [None]. *)
Definition store (option_strings : list string) (default : Py.value) (dest : Dest)
    (nargs : Nargs) : Action :=
  mkAction option_strings dest nargs PyNone (Some default) _StoreAction.

Definition add_argument (parser : list Action) (action : Action) : list Action :=
  (parser ++ [action])%list.

End Argparse.

Import Argparse.

(** ** build.py *)

(** Lines 6 to 56: the parser and its five options. *)
Definition parser : list Action :=
  let parser := ArgumentParser in
  let parser := add_argument parser (store_true ["-c"; "--configure"] (PyBool false) d_configure) in
  let parser := add_argument parser (store_true ["-r"; "--release"] (PyBool false) d_release) in
  let parser := add_argument parser (store_true ["-i"; "--install"] (PyBool false) d_install) in
  let parser := add_argument parser (store ["-t"; "--threads"] (PyInt 1) d_threads OPTIONAL) in
  let parser := add_argument parser (store_true ["--include-example"] (PyBool false) d_example) in
  parser.

(** The two places where the script starts a process: line 77 and
    line 94. *)
Inductive Site : Type :=
| configure_site
| build_site.

(** What a run does that is seen from outside, in the order it happens.
    [Popen site arguments command] is the call
    [subprocess.Popen(" ".join(arguments), shell=True, ...)] at [site]:
    [arguments] is the list at that moment and [command] the string that
    goes to the shell.  [wait site returncode] is the end of the [with]
    block: [Popen.__exit__] closes the pipe and waits for the child. *)
Inductive event : Type :=
| print_help
| print_usage
| print_error (message : ArgumentError)
| Popen (site : Site) (arguments : list string) (command : string)
| print (line : string)
| wait (site : Site) (returncode : Z).

Section Run.

(** The operating system: [shell os command] is what [/bin/sh -c command]
    does in the state [os]: the lines the child writes to the pipe (its
    stdout and stderr), its return code, and the state it leaves.  The
    shell itself is taken to start and the output to decode as text, so
    that [Popen] and the loop over the lines raise nothing. *)
Variable OS : Type.
Variable shell : OS -> string -> list string * Z * OS.

Record State : Type := mkState {
  arguments : list string;
  os : OS;
  trace : list event
}.

Definition M (A : Type) : Type := State -> A * State.

Definition ret {A : Type} (a : A) : M A := fun s => (a, s).

Definition bind {A B : Type} (m : M A) (k : A -> M B) : M B :=
  fun s => let (a, s') := m s in k a s'.

Notation "m ;; k" := (bind m (fun _ => k)) (at level 61, right associativity).

(** [arguments = l] *)
Definition assign (l : list string) : M unit :=
  fun s => (tt, mkState l (os s) (trace s)).

(** [arguments.extend(l)] *)
Definition extend (l : list string) : M unit :=
  fun s => (tt, mkState (arguments s ++ l)%list (os s) (trace s)).

(** [arguments.clear()] *)
Definition clear : M unit :=
  fun s => (tt, mkState [] (os s) (trace s)).

(** The [with subprocess.Popen(" ".join(arguments), ...) as process] block
    with its loop [for line in process.stdout: print(line.rstrip("\n"))]:
    the child is started, every line it writes is printed as it comes, and
    leaving the block waits for the child. *)
Definition run_and_stream (site : Site) : M unit :=
  fun s =>
    let command := Py.join " " (arguments s) in
    let '(lines, returncode, os') := shell (os s) command in
    (tt, mkState (arguments s) os'
           (trace s ++ Popen site (arguments s) command
                    :: map (fun line => print (Py.rstrip_newline line)) lines
                    ++ [wait site returncode])%list).

(** Lines 60 to 103. *)
Definition script (clargs : Namespace) : M unit :=
  assign [] ;;
  (if Py.eq (configure clargs) (PyBool true) then
     let build_type := "Debug" in
     let cmake_options :=
       ["cmake"; "-E"; "env"; "CLICOLOR_FORCE=1";
        "cmake"; "-G"; Py.str1 Py.dquote ++ "Unix Makefiles" ++ Py.str1 Py.dquote] in
     let build_type :=
       if Py.eq (release clargs) (PyBool true) then "Release" else build_type in
     let cmake_options := (cmake_options ++ [("-DCMAKE_BUILD_TYPE=" ++ build_type)%string])%list in
     let cmake_options :=
       if Py.eq (example clargs) (PyBool true)
       then (cmake_options ++ ["-DMALUNAL_TOOLING_BUILD_EXAMPLE=ON"])%list
       else cmake_options in
     extend cmake_options ;;
     extend ["-S"; "."; "-B"; "build"] ;;
     run_and_stream configure_site ;;
     clear
   else ret tt) ;;
  extend ["cmake"; "-E"; "env"; "CLICOLOR_FORCE=1";
          "cmake"; "--build"; "build"; "--"; "-j" ++ Py.str (threads clargs)] ;;
  run_and_stream build_site.

(** A run of the script with the command line [argv] ([sys.argv[1:]]) in
    the state [os0]: the trace, the exit status of the script and the
    state it leaves. *)
Definition main (argv : list string) (os0 : OS) : list event * Z * OS :=
  match parse_args parser argv with
  | inl help_exit => ([print_help], 0%Z, os0)
  | inl (error message) => ([print_usage; print_error message], 2%Z, os0)
  | inr clargs =>
      let s := snd (script clargs (mkState [] os0 [])) in
      (trace s, 0%Z, os s)
  end.

Definition child_lines (o : OS) (command : string) : list string :=
  fst (fst (shell o command)).
Definition child_returncode (o : OS) (command : string) : Z :=
  snd (fst (shell o command)).
Definition child_os (o : OS) (command : string) : OS :=
  snd (shell o command).

(** The events of one [with] block that starts in the state [o] with the
    list [args]. *)
Definition with_block (site : Site) (args : list string) (o : OS) : list event :=
  Popen site args (Py.join " " args)
    :: (map (fun line => print (Py.rstrip_newline line))
            (child_lines o (Py.join " " args))
        ++ [wait site (child_returncode o (Py.join " " args))])%list.

End Run.

(** An operating system that only remembers the commands it was given:
    every child prints nothing and returns [returncode]. *)
Definition log_shell (returncode : Z) (os : list string) (command : string)
  : list string * Z * list string :=
  ([], returncode, (os ++ [command])%list).

(** ** Reading a run *)

Definition trace_of {OS : Type} (r : list event * Z * OS) : list event := fst (fst r).
Definition status_of {OS : Type} (r : list event * Z * OS) : Z := snd (fst r).
Definition os_of {OS : Type} (r : list event * Z * OS) : OS := snd r.

Definition eqb_Site (a b : Site) : bool :=
  match a, b with
  | configure_site, configure_site | build_site, build_site => true
  | _, _ => false
  end.

Definition is_Popen (site : Site) (e : event) : bool :=
  match e with
  | Popen s _ _ => eqb_Site s site
  | _ => false
  end.


(** The invocation at [site] is issued in the trace [t]. *)
Definition issued (site : Site) (t : list event) : bool := existsb (is_Popen site) t.

(** The argument lists of the invocations at [site], in order. *)
Definition invocations (site : Site) (t : list event) : list (list string) :=
  flat_map (fun e => match e with
                     | Popen s arguments _ => if eqb_Site s site then [arguments] else []
                     | _ => []
                     end) t.

(** The strings that went to the shell, in order. *)
Definition commands (t : list event) : list string :=
  flat_map (fun e => match e with Popen _ _ command => [command] | _ => [] end) t.


(** [clargs.flag == True] *)
Definition is_set (v : Py.value) : bool := Py.eq v (PyBool true).

(** The list that is joined at line 78. *)
Definition configure_arguments (clargs : Namespace) : list string :=
  (["cmake"; "-E"; "env"; "CLICOLOR_FORCE=1"; "cmake"; "-G";
    (Py.str1 Py.dquote ++ "Unix Makefiles" ++ Py.str1 Py.dquote)%string;
    ("-DCMAKE_BUILD_TYPE="
       ++ (if is_set (release clargs) then "Release" else "Debug"))%string]
   ++ (if is_set (example clargs) then ["-DMALUNAL_TOOLING_BUILD_EXAMPLE=ON"] else [])
   ++ ["-S"; "."; "-B"; "build"])%list.

(** The list that is joined at line 95. *)
Definition build_arguments (clargs : Namespace) : list string :=
  ["cmake"; "-E"; "env"; "CLICOLOR_FORCE=1"; "cmake"; "--build"; "build"; "--";
   "-j" ++ Py.str (threads clargs)].



(** ** Notions for the statements *)




(** Two namespaces that differ at most in [install]. *)
Definition same_but_install (a b : Namespace) : Prop :=
  configure a = configure b /\ release a = release b
  /\ threads a = threads b /\ example a = example b.

(** The option strings of the four [store_true] options. *)
Definition store_true_flags : list string :=
  ["-c"; "--configure"; "-r"; "--release"; "-i"; "--install"; "--include-example"].

(** The option strings of the thread count. *)
Definition threads_flags : list string := ["-t"; "--threads"].

(** A string that the parser takes for an argument, not for an option:
    it can be the COUNT behind [-t]. *)
Definition plain (value : string) : Prop := _parse_optional parser value = inr None.

(** The item of a flag that is written out in full. *)
Definition flag_item (s : string) : item :=
  item_O s (lookup s (_option_string_actions parser), s, None).

(** The namespace after the flags [flags], one after the other. *)
Definition set_flags (flags : list string) (namespace : Namespace) : Namespace :=
  fold_left
    (fun namespace s =>
       match lookup s (_option_string_actions parser) with
       | Some action => setattr namespace (dest action) (const action)
       | None => namespace
       end)
    flags namespace.

(** [s] is one of the two ways to write the configure flag. *)
Definition is_configure_flag (s : string) : bool :=
  String.eqb s "-c" || String.eqb s "--configure".








(** The option strings of the help action. *)
Definition help_flags : list string := ["-h"; "--help"].

(** [s] abbreviates more than one long option: [_parse_optional] ends with
    an error for it. *)
Definition is_ambiguous (s : string) : bool :=
  match _parse_optional parser s with
  | inl _ => true
  | inr _ => false
  end.

(** The first character of [s] is [-]. *)
Definition starts_with_dash (s : string) : bool :=
  match s with
  | String c _ => Ascii.eqb c "-"%char
  | EmptyString => false
  end.

(** The beginnings of [s], from the empty string to [s] itself. *)
Fixpoint prefixes (s : string) : list string :=
  EmptyString
    :: match s with
       | EmptyString => []
       | String c s' => map (String c) (prefixes s')
       end.

(** The long flags, each with the length from which its beginnings fit no
    other option. *)
Definition abbreviations : list (string * nat) :=
  [("--configure", 3); ("--release", 3); ("--install", 5); ("--include-example", 5)].

(** A [bool]. *)
Definition is_bool (v : Py.value) : bool :=
  match v with
  | PyBool _ => true
  | _ => false
  end.

(** What [threads] can be: the default [1], [None], or a [str]. *)
Definition is_count (v : Py.value) : bool :=
  match v with
  | PyInt z => Z.eqb z 1
  | PyNone | PyStr _ => true
  | _ => false
  end.

Definition well_typed (namespace : Namespace) : bool :=
  is_bool (configure namespace) && is_bool (release namespace)
  && is_bool (install namespace) && is_bool (example namespace)
  && is_count (threads namespace).

(** An action tuple with an action of the parser [self] and one argument
    string at most. *)
Definition good_tuple (self : list Action) (t : action_tuple) : Prop :=
  In (action_of t) self /\ length (snd (fst t)) <= 1.

(** The letters of the short flags that take no argument. *)
Definition short_letters : list ascii := ["c"; "r"; "i"]%char.

(** [-c] for the letter [c]. *)
Definition short_flag (c : ascii) : string := String "-" (String c EmptyString).

(** The letters [letters] behind one [-]. *)
Definition cluster (letters : list ascii) : string :=
  String "-" (string_of_list_ascii letters).

(** The second scenario of the specification: the command line
    [--configure --release --threads 4] and the namespace it parses to. *)
Definition scenario_argv : list string :=
  ["--configure"; "--release"; "--threads"; "4"].

Definition scenario_clargs : Namespace :=
  mkNamespace (PyBool true) (PyBool true) (PyBool false) (PyStr "4") (PyBool false).



(** A run on the system that only records its commands, with children
    that return [returncode]. *)
Definition logged_run (returncode : Z) (argv : list string)
  : list event * Z * list string :=
  main (list string) (log_shell returncode) argv [].


(** ** The script after a successful parse *)

Section ScriptFacts.

Variable OS : Type.
Variable shell : OS -> string -> list string * Z * OS.

Lemma run_and_stream_eq (site : Site) (s : State OS) :
  run_and_stream OS shell site s
  = (tt, mkState OS (arguments OS s)
           (child_os OS shell (os OS s) (Py.join " " (arguments OS s)))
           (trace OS s ++ with_block OS shell site (arguments OS s) (os OS s))%list).
Proof.
  unfold run_and_stream, with_block, child_os, child_lines, child_returncode.
  destruct (shell (os OS s) (Py.join " " (arguments OS s))) as [[lines returncode] os'].
  reflexivity.
Qed.

(** What the script does, as one equation: the state it reaches from
    [s]. *)
Lemma script_eq (clargs : Namespace) (s : State OS) :
  script OS shell clargs s
  = (tt,
     if is_set (configure clargs) then
       let o1 := child_os OS shell (os OS s) (Py.join " " (configure_arguments clargs)) in
       mkState OS (build_arguments clargs)
         (child_os OS shell o1 (Py.join " " (build_arguments clargs)))
         (trace OS s ++ with_block OS shell configure_site (configure_arguments clargs) (os OS s)
                  ++ with_block OS shell build_site (build_arguments clargs) o1)%list
     else
       mkState OS (build_arguments clargs)
         (child_os OS shell (os OS s) (Py.join " " (build_arguments clargs)))
         (trace OS s ++ with_block OS shell build_site (build_arguments clargs) (os OS s))%list).
Proof.
  unfold script, bind, ret, assign, extend, clear, configure_arguments, is_set.
  destruct (Py.eq (configure clargs) (PyBool true)).
  - destruct (Py.eq (example clargs) (PyBool true));
      destruct (Py.eq (release clargs) (PyBool true));
      rewrite run_and_stream_eq; cbn [arguments os trace app];
      rewrite run_and_stream_eq; cbn [arguments os trace app];
      rewrite <- app_assoc; reflexivity.
  - rewrite run_and_stream_eq. cbn [arguments os trace app]. reflexivity.
Qed.

(** A run whose command line parses. *)
Lemma main_eq (argv : list string) (os0 : OS) (clargs : Namespace) :
  parse_args parser argv = inr clargs ->
  main OS shell argv os0
  = if is_set (configure clargs) then
      let o1 := child_os OS shell os0 (Py.join " " (configure_arguments clargs)) in
      ((with_block OS shell configure_site (configure_arguments clargs) os0
          ++ with_block OS shell build_site (build_arguments clargs) o1)%list,
       0%Z, child_os OS shell o1 (Py.join " " (build_arguments clargs)))
    else
      (with_block OS shell build_site (build_arguments clargs) os0,
       0%Z, child_os OS shell os0 (Py.join " " (build_arguments clargs))).
Proof.
  intros Hparse. unfold main. rewrite Hparse, script_eq.
  cbn [snd]. destruct (is_set (configure clargs)); reflexivity.
Qed.

End ScriptFacts.

(** ** What a trace contains *)

Section TraceFacts.

Variable OS : Type.
Variable shell : OS -> string -> list string * Z * OS.

Lemma issued_app (site : Site) (t u : list event) :
  issued site (t ++ u) = issued site t || issued site u.
Proof. apply existsb_app. Qed.

Lemma invocations_app (site : Site) (t u : list event) :
  invocations site (t ++ u) = (invocations site t ++ invocations site u)%list.
Proof. apply flat_map_app. Qed.

Lemma commands_app (t u : list event) :
  commands (t ++ u) = (commands t ++ commands u)%list.
Proof. apply flat_map_app. Qed.

Lemma eqb_Site_refl (site : Site) : eqb_Site site site = true.
Proof. destruct site; reflexivity. Qed.

Lemma issued_prints (site : Site) (lines : list string) (tail : list event) :
  issued site (map (fun line => print (Py.rstrip_newline line)) lines ++ tail)
  = issued site tail.
Proof. induction lines as [|l lines IH]; [reflexivity | exact IH]. Qed.

Lemma invocations_prints (site : Site) (lines : list string) (tail : list event) :
  invocations site (map (fun line => print (Py.rstrip_newline line)) lines ++ tail)
  = invocations site tail.
Proof. induction lines as [|l lines IH]; [reflexivity | exact IH]. Qed.

Lemma commands_prints (lines : list string) (tail : list event) :
  commands (map (fun line => print (Py.rstrip_newline line)) lines ++ tail)
  = commands tail.
Proof. induction lines as [|l lines IH]; [reflexivity | exact IH]. Qed.

Lemma issued_with_block (site site' : Site) (args : list string) (o : OS) :
  issued site (with_block OS shell site' args o) = eqb_Site site' site.
Proof.
  unfold with_block.
  change (issued site (?e :: ?t)) with (is_Popen site e || issued site t).
  rewrite issued_prints. cbn. rewrite !orb_false_r. reflexivity.
Qed.

Lemma invocations_with_block (site site' : Site) (args : list string) (o : OS) :
  invocations site (with_block OS shell site' args o)
  = if eqb_Site site' site then [args] else [].
Proof.
  unfold with_block.
  change (invocations site (Popen site' args ?c :: ?t))
    with ((if eqb_Site site' site then [args] else []) ++ invocations site t)%list.
  rewrite invocations_prints. cbn. rewrite app_nil_r. reflexivity.
Qed.

Lemma commands_with_block (site : Site) (args : list string) (o : OS) :
  commands (with_block OS shell site args o) = [Py.join " " args].
Proof.
  unfold with_block.
  change (commands (Popen site args ?c :: ?t)) with (c :: commands t).
  rewrite commands_prints. reflexivity.
Qed.




End TraceFacts.

(** ** Properties of a run whose command line parses *)

Section Properties.

Variable OS : Type.
Variable shell : OS -> string -> list string * Z * OS.


End Properties.

(** ** Return codes of the children *)

Section ReturnCodes.

Variable OS : Type.




End ReturnCodes.

(** ** Facts about the parser loop, for any parser *)

Section ArgparseFacts.

Variable self : list Action.

Lemma consume_following_acc (action : Action) (option_string : string)
    (following : list item) (acc : list action_tuple) :
  consume_following action option_string following acc
  = match consume_following action option_string following [] with
    | inl e => inl e
    | inr (tuples, n) => inr ((acc ++ tuples)%list, n)
    end.
Proof. reflexivity. Qed.

(** The tuples collected so far are only passed along. *)
Lemma consume_explicit_acc (explicit_arg : string) :
  forall (action : Action) (option_string : string) (following : list item)
         (acc : list action_tuple),
    consume_explicit self action option_string explicit_arg following acc
    = match consume_explicit self action option_string explicit_arg following [] with
      | inl e => inl e
      | inr (tuples, n) => inr ((acc ++ tuples)%list, n)
      end.
Proof.
  induction explicit_arg as [|c new IH]; intros action option_string following acc.
  - cbn [consume_explicit].
    destruct (_match_argument action "A" =? 1)%nat; reflexivity.
  - cbn [consume_explicit].
    destruct ((_match_argument action "A" =? 0)%nat &&
              match option_string with
              | String _ (String c1 _) => negb (Py.contains c1 prefix_chars)
              | _ => false
              end).
    + destruct (lookup _ (_option_string_actions self)) as [action'|]; [|reflexivity].
      destruct new as [|c' new'].
      * unfold consume_following. cbn [app]. rewrite <- app_assoc. reflexivity.
      * rewrite (IH action' _ following (acc ++ _)%list).
        rewrite (IH action' _ following ([] ++ _)%list).
        destruct (consume_explicit self action' _ (String c' new') following [])
          as [e|[tuples n]]; [reflexivity|].
        cbn [app]. rewrite <- app_assoc. reflexivity.
    + destruct (_match_argument action "A" =? 1)%nat; reflexivity.
Qed.

Lemma consume_following_count (action : Action) (option_string : string)
    (following : list item) (acc tuples : list action_tuple) (n : nat) :
  consume_following action option_string following acc = inr (tuples, S n) ->
  exists s rest, following = item_A s :: rest.
Proof.
  unfold consume_following, _match_argument. intros H. injection H as _ Hn.
  destruct (nargs action); [discriminate|].
  destruct following as [|[s|s|s t] rest]; try discriminate.
  exists s, rest. reflexivity.
Qed.

(** An option takes a following string only when that string is an
    argument. *)
Lemma consume_explicit_count (explicit_arg : string) :
  forall (action : Action) (option_string : string) (following : list item)
         (acc tuples : list action_tuple) (n : nat),
    consume_explicit self action option_string explicit_arg following acc
    = inr (tuples, S n) ->
    exists s rest, following = item_A s :: rest.
Proof.
  induction explicit_arg as [|c new IH]; intros action option_string following acc tuples n.
  - cbn [consume_explicit].
    destruct (_match_argument action "A" =? 1)%nat; discriminate.
  - cbn [consume_explicit].
    destruct ((_match_argument action "A" =? 0)%nat &&
              match option_string with
              | String _ (String c1 _) => negb (Py.contains c1 prefix_chars)
              | _ => false
              end).
    + destruct (lookup _ (_option_string_actions self)) as [action'|]; [|discriminate].
      destruct new as [|c' new'].
      * apply consume_following_count.
      * apply IH.
    + destruct (_match_argument action "A" =? 1)%nat; discriminate.
Qed.

(** Whether the loop over an explicit argument fails, and which actions
    it collects, does not depend on the strings that follow. *)
Lemma consume_explicit_following (explicit_arg : string) :
  forall (action : Action) (option_string : string) (following : list item),
    match consume_explicit self action option_string explicit_arg following [],
          consume_explicit self action option_string explicit_arg [] [] with
    | inl x, inl y => x = y
    | inr (tuples, _), inr (tuples0, _) => map action_of tuples = map action_of tuples0
    | _, _ => False
    end.
Proof.
  induction explicit_arg as [|c new IH]; intros action option_string following.
  - cbn [consume_explicit].
    destruct (_match_argument action "A" =? 1)%nat; reflexivity.
  - cbn [consume_explicit].
    destruct ((_match_argument action "A" =? 0)%nat &&
              match option_string with
              | String _ (String c1 _) => negb (Py.contains c1 prefix_chars)
              | _ => false
              end).
    + destruct (lookup _ (_option_string_actions self)) as [action'|]; [|reflexivity].
      destruct new as [|c' new'].
      * reflexivity.
      * rewrite (consume_explicit_acc _ action' _ following).
        rewrite (consume_explicit_acc _ action' _ []).
        specialize (IH action'
                       match option_string with
                       | String char _ => String char (String c EmptyString)
                       | EmptyString => String c EmptyString
                       end following).
        destruct (consume_explicit self action' _ (String c' new') following [])
          as [x|[tuples n]];
          destruct (consume_explicit self action' _ (String c' new') [] [])
            as [y|[tuples0 n0]]; try assumption.
        cbn [app map]. f_equal. assumption.
    + destruct (_match_argument action "A" =? 1)%nat; reflexivity.
Qed.


Lemma consume_returns_bounded (bound : nat) :
  forall (items : list item),
    length items <= bound ->
    forall (namespace : Namespace) (extras : list string)
           (namespace' : Namespace) (extras' : list string),
      consume self items namespace extras = inr (namespace', extras') ->
      (exists more, extras' = (extras ++ more)%list
                    /\ forall it, In it items -> stray it = true ->
                                  In (arg_string_of it) more)
      /\ (forall s action option_string explicit_arg,
             In (item_O s (Some action, option_string, Some explicit_arg)) items ->
             exists r, consume_explicit self action option_string explicit_arg [] []
                       = inr r).
Proof.
  induction bound as [|bound IH]; intros items Hlen namespace extras namespace' extras';
    (destruct items as [|it rest];
     [ cbn [consume]; intros H; injection H as <- <-; split;
       [ exists []; split; [symmetry; apply app_nil_r | intros it []]
       | intros s action option_string explicit_arg [] ]
     | ]).
  - cbn [length] in Hlen. lia.
  - cbn [length] in Hlen. apply le_S_n in Hlen.
    assert (Hstray :
      forall s, stray it = true \/ it = item_A s -> arg_string_of it = s ->
        consume self rest namespace (extras ++ [s])%list = inr (namespace', extras') ->
        (exists more, extras' = (extras ++ more)%list
                      /\ forall it', In it' (it :: rest) -> stray it' = true ->
                                    In (arg_string_of it') more)
        /\ (forall s' action option_string explicit_arg,
               (forall t, it <> item_O s' (Some action, option_string, t)) ->
               In (item_O s' (Some action, option_string, Some explicit_arg))
                  (it :: rest) ->
               exists r, consume_explicit self action option_string explicit_arg [] []
                         = inr r)).
    { intros s Hit Hs H. apply (IH rest Hlen) in H.
      destruct H as [[more [-> Hmore]] Hexp]. split.
      - exists (s :: more). split; [rewrite <- app_assoc; reflexivity|].
        intros it' [<-|Hin] Hst.
        + left. symmetry. exact Hs.
        + right. apply Hmore; assumption.
      - intros s' action option_string explicit_arg Hne [Heq|Hin].
        + exfalso. apply (Hne (Some explicit_arg)). exact Heq.
        + apply (Hexp s'). exact Hin. }
    destruct it as [s|s|s [[[action|] option_string] explicit_arg]].
    + cbn [consume]. intros H.
      apply (Hstray s) in H; [|right; reflexivity|reflexivity].
      destruct H as [H1 H2]. split; [exact H1|].
      intros s' a o e Hin. apply (H2 s' a o e); [discriminate|exact Hin].
    + cbn [consume]. intros H.
      apply (Hstray s) in H; [|left; reflexivity|reflexivity].
      destruct H as [H1 H2]. split; [exact H1|].
      intros s' a o e Hin. apply (H2 s' a o e); [discriminate|exact Hin].
    + clear Hstray. cbn [consume].
      destruct (match explicit_arg with
                | Some e => consume_explicit self action option_string e rest []
                | None => consume_following action option_string rest []
                end) as [x|[tuples n]] eqn:Hopt; [discriminate|].
      destruct (take_actions namespace tuples) as [x|namespace1]; [discriminate|].
      assert (Hrest :
        forall rest1,
          length rest1 <= bound ->
          (forall it', In it' rest -> In it' rest1 \/ exists a, it' = item_A a) ->
          consume self rest1 namespace1 extras = inr (namespace', extras') ->
          (exists more, extras' = (extras ++ more)%list
                        /\ forall it', In it' (item_O s (Some action, option_string,
                                                         explicit_arg) :: rest) ->
                                      stray it' = true -> In (arg_string_of it') more)
          /\ (forall s' a o e,
                 In (item_O s' (Some a, o, Some e))
                    (item_O s (Some action, option_string, explicit_arg) :: rest) ->
                 exists r, consume_explicit self a o e [] [] = inr r)).
      { intros rest1 Hlen1 Hsub H. apply (IH rest1 Hlen1) in H.
        destruct H as [[more [-> Hmore]] Hexp].
        split.
        - exists more. split; [reflexivity|].
          intros it' [<-|Hin] Hst; [discriminate Hst|].
          destruct (Hsub it' Hin) as [Hin1|[a ->]]; [|discriminate Hst].
          apply Hmore; assumption.
        - intros s' a o e [Heq|Hin].
          + injection Heq as -> -> -> ->.
            pose proof (consume_explicit_following e a o rest) as Hind.
            rewrite Hopt in Hind.
            destruct (consume_explicit self a o e [] []) as [y|r]; [contradiction|].
            exists r. reflexivity.
          + destruct (Hsub _ Hin) as [Hin1|[a' Ha']]; [|discriminate Ha'].
            apply (Hexp s'). exact Hin1. }
      destruct n as [|n].
      * intros H.
        assert (consume self rest namespace1 extras = inr (namespace', extras')) as H'.
        { destruct rest; exact H. }
        apply (Hrest rest); [exact Hlen | intros it' Hin; left; exact Hin | exact H'].
      * assert (exists a rest', rest = item_A a :: rest') as [a [rest' ->]].
        { destruct explicit_arg as [e|].
          - apply (consume_explicit_count e action option_string rest [] tuples n Hopt).
          - apply (consume_following_count action option_string rest [] tuples n Hopt). }
        intros H. apply (Hrest rest'); [cbn [length] in Hlen; lia| |exact H].
        intros it' [<-|Hin]; [right; exists a; reflexivity | left; exact Hin].
    + cbn [consume]. intros H.
      apply (Hstray s) in H; [|left; reflexivity|reflexivity].
      destruct H as [H1 H2]. split; [exact H1|].
      intros s' a o e Hin. apply (H2 s' a o e); [discriminate|exact Hin].
Qed.

(** A parse loop that returns has put every stray item into [extras], in
    addition to what was there, and has met no explicit argument that it
    could not use. *)
Lemma consume_returns (items : list item) (namespace : Namespace)
    (extras : list string) (namespace' : Namespace) (extras' : list string) :
  consume self items namespace extras = inr (namespace', extras') ->
  (exists more, extras' = (extras ++ more)%list
                /\ forall it, In it items -> stray it = true ->
                              In (arg_string_of it) more)
  /\ (forall s action option_string explicit_arg,
         In (item_O s (Some action, option_string, Some explicit_arg)) items ->
         exists r, consume_explicit self action option_string explicit_arg [] []
                   = inr r).
Proof. apply (consume_returns_bounded (length items)). apply le_n. Qed.





Lemma classify_items (arg_strings : list string) :
  forall items, classify self arg_strings = inr items ->
    forall it, In it items ->
      In (arg_string_of it) arg_strings
      /\ (forall s t, it = item_O s t -> _parse_optional self s = inr (Some t)).
Proof.
  induction arg_strings as [|s rest IH]; intros items.
  - cbn [classify]. intros H. injection H as <-. intros it [].
  - cbn [classify]. destruct (String.eqb s "--") eqn:Hdash.
    + intros H. injection H as <-. intros it [<-|Hin].
      * split; [left; reflexivity | discriminate].
      * apply in_map_iff in Hin. destruct Hin as [a [<- Hin]].
        split; [right; exact Hin | discriminate].
    + destruct (_parse_optional self s) as [y|parsed] eqn:Hs; [discriminate|].
      destruct (classify self rest) as [y|items0]; [discriminate|].
      intros H. injection H as <-. intros it [<-|Hin].
      * destruct parsed as [t|]; split; try (left; reflexivity); try discriminate.
        intros s' t' Heq. injection Heq as <- <-. exact Hs.
      * destruct (IH items0 eq_refl it Hin) as [H1 H2].
        split; [right; exact H1 | exact H2].
Qed.




End ArgparseFacts.

(** ** Command lines that the parser refuses *)

Section Refusal.

Variable OS : Type.
Variable shell : OS -> string -> list string * Z * OS.


End Refusal.

(** ** The install flag *)

Section InstallFacts.

Variable self : list Action.

Lemma same_but_install_refl (a : Namespace) : same_but_install a a.
Proof. repeat split. Qed.






End InstallFacts.

(** ** One step of the parser *)

Section StepFacts.

Variable self : list Action.

Lemma classify_option (s : string) (t : option_tuple) (rest : list string) :
  String.eqb s "--" = false ->
  _parse_optional self s = inr (Some t) ->
  classify self (s :: rest)
  = match classify self rest with
    | inl e => inl e
    | inr items => inr (item_O s t :: items)
    end.
Proof. intros Hdash Hs. cbn [classify]. rewrite Hdash, Hs. reflexivity. Qed.

Lemma classify_argument (s : string) (rest : list string) :
  String.eqb s "--" = false ->
  _parse_optional self s = inr None ->
  classify self (s :: rest)
  = match classify self rest with
    | inl e => inl e
    | inr items => inr (item_A s :: items)
    end.
Proof. intros Hdash Hs. cbn [classify]. rewrite Hdash, Hs. reflexivity. Qed.

(** A [store_true] option without an explicit argument sets its attribute
    and takes nothing. *)
Lemma consume_store_true (s option_string : string) (action : Action)
    (rest : list item) (namespace : Namespace) (extras : list string) :
  class action = _StoreTrueAction ->
  nargs action = nargs_0 ->
  consume self (item_O s (Some action, option_string, None) :: rest) namespace extras
  = consume self rest (setattr namespace (dest action) (const action)) extras.
Proof.
  intros Hclass Hnargs. cbn [consume]. unfold consume_following, _match_argument.
  rewrite Hnargs. cbn [app firstn take_actions]. unfold take_action.
  rewrite Hclass. reflexivity.
Qed.

(** A [store] option with [nargs='?'] takes the next string when it is an
    argument. *)
Lemma consume_store_value (s option_string value : string) (action : Action)
    (rest : list item) (namespace : Namespace) (extras : list string) :
  class action = _StoreAction ->
  nargs action = OPTIONAL ->
  String.eqb value "--" = false ->
  consume self (item_O s (Some action, option_string, None) :: item_A value :: rest)
          namespace extras
  = consume self rest (setattr namespace (dest action) (PyStr value)) extras.
Proof.
  intros Hclass Hnargs Hvalue. cbn [consume]. unfold consume_following, _match_argument.
  rewrite Hnargs. cbn [arg_strings_pattern pattern_letter].
  assert (Hpat : Py.startswith (String "A"%char (arg_strings_pattern rest)) "A" = true).
  { unfold Py.startswith. cbn. destruct (arg_strings_pattern rest); reflexivity. }
  rewrite Hpat. cbn [app firstn map arg_string_of take_actions]. unfold take_action, _get_values.
  rewrite Hclass, Hnargs. cbn [Py.remove_first]. rewrite Hvalue. reflexivity.
Qed.

(** Without an argument behind it, it stores its [const]. *)
Lemma consume_store_const (s option_string : string) (action : Action)
    (rest : list item) (namespace : Namespace) (extras : list string) :
  class action = _StoreAction ->
  nargs action = OPTIONAL ->
  option_strings action <> [] ->
  match rest with item_A _ :: _ => False | _ => True end ->
  consume self (item_O s (Some action, option_string, None) :: rest) namespace extras
  = consume self rest (setattr namespace (dest action) (const action)) extras.
Proof.
  intros Hclass Hnargs Hopts Hrest. cbn [consume]. unfold consume_following, _match_argument.
  rewrite Hnargs.
  assert (Hpat : Py.startswith (arg_strings_pattern rest) "A" = false).
  { destruct rest as [|[a|d|o t] rest']; try reflexivity. contradiction. }
  rewrite Hpat. cbn [app firstn take_actions]. unfold take_action, _get_values.
  rewrite Hclass, Hnargs. cbn [Py.remove_first].
  destruct (option_strings action); [contradiction|]. reflexivity.
Qed.


End StepFacts.

(** ** Command lines made of flags *)

Lemma store_true_flag_parse (s : string) :
  In s store_true_flags ->
  exists action,
    lookup s (_option_string_actions parser) = Some action
    /\ _parse_optional parser s = inr (Some (Some action, s, None))
    /\ class action = _StoreTrueAction
    /\ nargs action = nargs_0
    /\ const action = PyBool true
    /\ dest action <> d_threads
    /\ dest action <> d_help
    /\ String.eqb s "--" = false.
Proof.
  intros Hin. cbn in Hin.
  repeat (destruct Hin as [<-|Hin];
          [eexists; split; [vm_compute; reflexivity|];
           split; [vm_compute; reflexivity|];
           repeat split; discriminate|]).
  contradiction.
Qed.

Lemma threads_flag_parse (s : string) :
  In s threads_flags ->
  exists action,
    _parse_optional parser s = inr (Some (Some action, s, None))
    /\ class action = _StoreAction
    /\ nargs action = OPTIONAL
    /\ const action = PyNone
    /\ dest action = d_threads
    /\ option_strings action <> []
    /\ String.eqb s "--" = false.
Proof.
  intros Hin. cbn in Hin.
  repeat (destruct Hin as [<-|Hin];
          [eexists; split; [vm_compute; reflexivity|];
           repeat split; discriminate|]).
  contradiction.
Qed.

Lemma plain_not_dash (value : string) : plain value -> String.eqb value "--" = false.
Proof.
  unfold plain. intros Hplain.
  destruct (String.eqb value "--") eqn:Heq; [|reflexivity].
  apply String.eqb_eq in Heq. subst value. vm_compute in Hplain. discriminate Hplain.
Qed.

Lemma classify_flags (flags : list string) (rest : list string) :
  Forall (fun s => In s store_true_flags) flags ->
  classify parser (flags ++ rest)
  = match classify parser rest with
    | inl e => inl e
    | inr items => inr (map flag_item flags ++ items)%list
    end.
Proof.
  induction 1 as [|s flags Hs Hflags IH].
  - cbn [app map]. destruct (classify parser rest); reflexivity.
  - destruct (store_true_flag_parse s Hs) as [action [Hlook [Hparse [_ [_ [_ [_ [_ Hdash]]]]]]]].
    cbn [app]. rewrite (classify_option parser s _ _ Hdash Hparse), IH.
    destruct (classify parser rest); [reflexivity|].
    cbn [map app]. unfold flag_item at 2. rewrite Hlook. reflexivity.
Qed.

Lemma consume_flags (flags : list string) :
  Forall (fun s => In s store_true_flags) flags ->
  forall (items : list item) (namespace : Namespace) (extras : list string),
    consume parser (map flag_item flags ++ items) namespace extras
    = consume parser items (set_flags flags namespace) extras.
Proof.
  induction 1 as [|s flags Hs Hflags IH]; intros items namespace extras.
  - reflexivity.
  - destruct (store_true_flag_parse s Hs) as [action [Hlook [_ [Hclass [Hnargs _]]]]].
    cbn [map app set_flags fold_left]. unfold flag_item at 1. rewrite Hlook.
    rewrite (consume_store_true parser s s action _ namespace extras Hclass Hnargs).
    apply IH.
Qed.

Lemma threads_set_flags (flags : list string) :
  Forall (fun s => In s store_true_flags) flags ->
  forall namespace, threads (set_flags flags namespace) = threads namespace.
Proof.
  induction 1 as [|s flags Hs Hflags IH]; intros namespace.
  - reflexivity.
  - destruct (store_true_flag_parse s Hs) as [action [Hlook [_ [_ [_ [_ [Hdest _]]]]]]].
    cbn [set_flags fold_left]. rewrite Hlook.
    change (fold_left _ flags ?n) with (set_flags flags n). rewrite IH.
    destruct (dest action); try reflexivity. contradiction.
Qed.

Lemma flag_items_head (flags : list string) (items : list item) :
  match items with item_A _ :: _ => False | _ => True end ->
  match (map flag_item flags ++ items)%list with item_A _ :: _ => False | _ => True end.
Proof. destruct flags; [trivial | intros _; exact I]. Qed.

(** Flags only: the parse succeeds. *)
Lemma parse_flags (flags : list string) :
  Forall (fun s => In s store_true_flags) flags ->
  parse_args parser flags = inr (set_flags flags (defaults parser)).
Proof.
  intros Hflags. unfold parse_args, parse_known_args.
  rewrite <- (app_nil_r flags) at 1. rewrite (classify_flags flags [] Hflags).
  cbn [classify]. rewrite (consume_flags flags Hflags). reflexivity.
Qed.

(** Flags around [-t COUNT] or [--threads COUNT]. *)
Lemma parse_flags_value (flags1 flags2 : list string) (opt value : string) :
  Forall (fun s => In s store_true_flags) flags1 ->
  Forall (fun s => In s store_true_flags) flags2 ->
  In opt threads_flags ->
  plain value ->
  parse_args parser (flags1 ++ opt :: value :: flags2)
  = inr (set_flags flags2
           (setattr (set_flags flags1 (defaults parser)) d_threads (PyStr value))).
Proof.
  intros H1 H2 Hopt Hplain. unfold parse_args, parse_known_args.
  destruct (threads_flag_parse opt Hopt)
    as [action [Hparse [Hclass [Hnargs [Hconst [Hdest [Hopts Hdash]]]]]]].
  pose proof (plain_not_dash value Hplain) as Hvalue.
  rewrite (classify_flags flags1 _ H1).
  rewrite (classify_option parser opt _ _ Hdash Hparse).
  rewrite (classify_argument parser value _ Hvalue Hplain).
  rewrite <- (app_nil_r flags2) at 1. rewrite (classify_flags flags2 [] H2).
  cbn [classify]. rewrite (consume_flags flags1 H1).
  rewrite (consume_store_value parser opt opt value action _ _ _ Hclass Hnargs Hvalue).
  rewrite (consume_flags flags2 H2), Hdest. reflexivity.
Qed.

(** Flags around [-t] or [--threads] without a COUNT. *)
Lemma parse_flags_const (flags1 flags2 : list string) (opt : string) :
  Forall (fun s => In s store_true_flags) flags1 ->
  Forall (fun s => In s store_true_flags) flags2 ->
  In opt threads_flags ->
  parse_args parser (flags1 ++ opt :: flags2)
  = inr (set_flags flags2
           (setattr (set_flags flags1 (defaults parser)) d_threads PyNone)).
Proof.
  intros H1 H2 Hopt. unfold parse_args, parse_known_args.
  destruct (threads_flag_parse opt Hopt)
    as [action [Hparse [Hclass [Hnargs [Hconst [Hdest [Hopts Hdash]]]]]]].
  rewrite (classify_flags flags1 _ H1).
  rewrite (classify_option parser opt _ _ Hdash Hparse).
  rewrite <- (app_nil_r flags2) at 1. rewrite (classify_flags flags2 [] H2).
  cbn [classify]. rewrite (consume_flags flags1 H1).
  rewrite (consume_store_const parser opt opt action _ _ _ Hclass Hnargs Hopts
             (flag_items_head flags2 [] I)).
  rewrite (consume_flags flags2 H2), Hdest, Hconst. reflexivity.
Qed.



(** ** The thread count and the install flag *)

Section Threads.

Variable OS : Type.
Variable shell : OS -> string -> list string * Z * OS.

(** The build invocation of a run whose command line parses. *)
Lemma build_invocation (argv : list string) (os0 : OS) (clargs : Namespace) :
  parse_args parser argv = inr clargs ->
  invocations build_site (trace_of (main OS shell argv os0)) = [build_arguments clargs]
  /\ last (commands (trace_of (main OS shell argv os0))) EmptyString
     = Py.join " " (build_arguments clargs).
Proof.
  intros Hparse. rewrite (main_eq OS shell argv os0 clargs Hparse).
  destruct (is_set (configure clargs)); unfold trace_of; cbn [fst snd].
  - rewrite invocations_app, commands_app, !invocations_with_block, !commands_with_block.
    split; reflexivity.
  - rewrite invocations_with_block, commands_with_block. split; reflexivity.
Qed.


(** C9: [-t] or [--threads] without a COUNT, among any flags: the parse
    succeeds, [threads] is [None] and not the default 1, and the last
    argument of the build invocation is [-jNone]. *)
Theorem threads_without_count (flags1 flags2 : list string) (opt : string) (os0 : OS) :
  Forall (fun s => In s store_true_flags) flags1 ->
  Forall (fun s => In s store_true_flags) flags2 ->
  In opt threads_flags ->
  (exists clargs,
     parse_args parser (flags1 ++ opt :: flags2) = inr clargs
     /\ threads clargs = PyNone)
  /\ invocations build_site (trace_of (main OS shell (flags1 ++ opt :: flags2) os0))
     = [["cmake"; "-E"; "env"; "CLICOLOR_FORCE=1"; "cmake"; "--build"; "build"; "--";
         "-jNone"]]
  /\ last (commands (trace_of (main OS shell (flags1 ++ opt :: flags2) os0))) EmptyString
     = "cmake -E env CLICOLOR_FORCE=1 cmake --build build -- -jNone".
Proof.
  intros H1 H2 Hopt.
  pose proof (parse_flags_const flags1 flags2 opt H1 H2 Hopt) as Hparse.
  assert (Hthreads :
    threads (set_flags flags2
               (setattr (set_flags flags1 (defaults parser)) d_threads PyNone)) = PyNone)
    by (rewrite (threads_set_flags flags2 H2); reflexivity).
  split; [|split].
  - eexists. split; [exact Hparse | exact Hthreads].
  - destruct (build_invocation _ os0 _ Hparse) as [-> _].
    unfold build_arguments. rewrite Hthreads. reflexivity.
  - destruct (build_invocation _ os0 _ Hparse) as [_ ->].
    unfold build_arguments. rewrite Hthreads. reflexivity.
Qed.


End Threads.

Section Install.

Variable OS : Type.
Variable shell : OS -> string -> list string * Z * OS.





End Install.

(** ** The configure flag *)

Lemma configure_set_flags (flags : list string) :
  Forall (fun s => In s store_true_flags) flags ->
  forall namespace,
    configure (set_flags flags namespace)
    = if existsb is_configure_flag flags then PyBool true else configure namespace.
Proof.
  induction 1 as [|s flags Hs Hflags IH]; intros namespace.
  - reflexivity.
  - cbn [set_flags fold_left existsb].
    change (fold_left _ flags ?n) with (set_flags flags n). rewrite IH.
    cbn in Hs.
    repeat (destruct Hs as [<-|Hs];
            [cbn; destruct (existsb is_configure_flag flags); reflexivity|]).
    contradiction.
Qed.

Section Configure.

Variable OS : Type.
Variable shell : OS -> string -> list string * Z * OS.

(** C1: for every command line that the parser accepts, the configure
    invocation is issued if and only if the configure flag is set
    ([clargs.configure == True]); it is then issued once, and when the flag
    is not set no configure invocation exists and the only command that
    goes to the shell is the build command.  On a command line of flags the
    flag is set exactly when [-c] or [--configure] is one of them. *)
Theorem configure_issued_iff_flag (argv : list string) (os0 : OS) (clargs : Namespace) :
  parse_args parser argv = inr clargs ->
  issued configure_site (trace_of (main OS shell argv os0)) = is_set (configure clargs)
  /\ length (invocations configure_site (trace_of (main OS shell argv os0)))
     = (if is_set (configure clargs) then 1 else 0)
  /\ length (commands (trace_of (main OS shell argv os0)))
     = (if is_set (configure clargs) then 2 else 1)
  /\ (forall flags,
        Forall (fun s => In s store_true_flags) flags ->
        issued configure_site (trace_of (main OS shell flags os0))
        = existsb is_configure_flag flags).
Proof.
  intros Hparse.
  assert (Hissued : forall argv' clargs',
             parse_args parser argv' = inr clargs' ->
             issued configure_site (trace_of (main OS shell argv' os0))
             = is_set (configure clargs')).
  { intros argv' clargs' Hparse'. rewrite (main_eq OS shell argv' os0 clargs' Hparse').
    destruct (is_set (configure clargs')); unfold trace_of; cbn [fst snd].
    - rewrite issued_app, !issued_with_block. reflexivity.
    - rewrite issued_with_block. reflexivity. }
  split; [apply Hissued; exact Hparse|].
  split; [|split].
  - rewrite (main_eq OS shell argv os0 clargs Hparse).
    destruct (is_set (configure clargs)); unfold trace_of; cbn [fst snd].
    + rewrite invocations_app, !invocations_with_block. reflexivity.
    + rewrite invocations_with_block. reflexivity.
  - rewrite (main_eq OS shell argv os0 clargs Hparse).
    destruct (is_set (configure clargs)); unfold trace_of; cbn [fst snd].
    + rewrite commands_app, !commands_with_block. reflexivity.
    + rewrite commands_with_block. reflexivity.
  - intros flags Hflags.
    rewrite (Hissued flags _ (parse_flags flags Hflags)).
    rewrite (configure_set_flags flags Hflags).
    destruct (existsb is_configure_flag flags); reflexivity.
Qed.

End Configure.



Section ConfigureArguments.

Variable OS : Type.
Variable shell : OS -> string -> list string * Z * OS.




End ConfigureArguments.

(** ** The parser on some command lines *)

Example parse_group_of_short_options :
  parse_args parser ["-crt8"]
  = inr (mkNamespace (PyBool true) (PyBool true) (PyBool false) (PyStr "8") (PyBool false)).
Proof. vm_compute. reflexivity. Qed.

Example parse_abbreviation :
  parse_args parser ["--inc"; "--conf"]
  = inr (mkNamespace (PyBool true) (PyBool false) (PyBool false) (PyInt 1) (PyBool true)).
Proof. vm_compute. reflexivity. Qed.

Example parse_ambiguous_abbreviation :
  parse_args parser ["--in"]
  = inl (error (ambiguous_option "--in" ["--install"; "--include-example"])).
Proof. vm_compute. reflexivity. Qed.

Example parse_negative_count :
  parse_args parser ["-t"; "-5"]
  = inr (mkNamespace (PyBool false) (PyBool false) (PyBool false) (PyStr "-5")
                     (PyBool false)).
Proof. vm_compute. reflexivity. Qed.

Example parse_option_after_threads :
  parse_args parser ["-t"; "-c"; "4"] = inl (error (unrecognized_arguments ["4"])).
Proof. vm_compute. reflexivity. Qed.

Example parse_value_for_a_flag :
  parse_args parser ["--release=yes"]
  = inl (error (ignored_explicit_argument
                  (store_true ["-r"; "--release"] (PyBool false) d_release) "yes")).
Proof. vm_compute. reflexivity. Qed.

Example parse_double_dash :
  parse_args parser ["--"] = inl (error (unrecognized_arguments ["--"])).
Proof. vm_compute. reflexivity. Qed.

Example parse_help_in_a_group :
  parse_args parser ["-ch"; "--bogus"] = inl help_exit.
Proof. vm_compute. reflexivity. Qed.

(** ** The scenarios of the specification and instances of the theorems *)

(** No flags: only the build invocation, with a job count of 1. *)
Example scenario_no_flags :
  logged_run 0 []
  = ([Popen build_site
        ["cmake"; "-E"; "env"; "CLICOLOR_FORCE=1"; "cmake"; "--build"; "build"; "--"; "-j1"]
        "cmake -E env CLICOLOR_FORCE=1 cmake --build build -- -j1";
      wait build_site 0],
     0%Z,
     ["cmake -E env CLICOLOR_FORCE=1 cmake --build build -- -j1"]).
Proof. vm_compute. reflexivity. Qed.

(** [--configure --release --threads 4]: a configure invocation with the
    build type Release, then a build invocation with the job count 4. *)
Example scenario_configure_release_threads :
  commands (trace_of (logged_run 0 scenario_argv))
  = [String.concat " "
       ["cmake -E env CLICOLOR_FORCE=1 cmake -G";
        Py.str1 Py.dquote ++ "Unix Makefiles" ++ Py.str1 Py.dquote;
        "-DCMAKE_BUILD_TYPE=Release -S . -B build"];
     "cmake -E env CLICOLOR_FORCE=1 cmake --build build -- -j4"].
Proof. vm_compute. reflexivity. Qed.

Lemma configure_issued_iff_flag_witness :
  parse_args parser scenario_argv = inr scenario_clargs
  /\ issued configure_site (trace_of (logged_run 0 scenario_argv)) = true
  /\ length (invocations configure_site (trace_of (logged_run 0 scenario_argv))) = 1
  /\ length (commands (trace_of (logged_run 0 scenario_argv))) = 2.
Proof.
  split; [vm_compute; reflexivity|].
  destruct (configure_issued_iff_flag (list string) (log_shell 0) scenario_argv []
              scenario_clargs) as [H1 [H2 [H3 _]]]; [vm_compute; reflexivity|].
  split; [exact H1|]. split; [exact H2 | exact H3].
Defined.









Lemma threads_without_count_witness :
  invocations build_site (trace_of (logged_run 0 ["-c"; "-t"; "-r"]))
  = [["cmake"; "-E"; "env"; "CLICOLOR_FORCE=1"; "cmake"; "--build"; "build"; "--";
      "-jNone"]]
  /\ last (commands (trace_of (logged_run 0 ["-c"; "-t"; "-r"]))) EmptyString
     = "cmake -E env CLICOLOR_FORCE=1 cmake --build build -- -jNone".
Proof.
  destruct (threads_without_count (list string) (log_shell 0) ["-c"] ["-r"] "-t" [])
    as [_ [H2 H3]].
  - constructor; [cbn; tauto | constructor].
  - constructor; [cbn; tauto | constructor].
  - cbn. tauto.
  - split; [exact H2 | exact H3].
Defined.



(** ** What the script prints *)




Section Output.

Variable OS : Type.
Variable shell : OS -> string -> list string * Z * OS.



(** X2: every command that goes to the shell starts with the override that
    forces colour, [cmake -E env CLICOLOR_FORCE=1 cmake]. *)
Theorem commands_force_colour (argv : list string) (os0 : OS) (clargs : Namespace)
    (command : string) :
  parse_args parser argv = inr clargs ->
  In command (commands (trace_of (main OS shell argv os0))) ->
  Py.startswith command "cmake -E env CLICOLOR_FORCE=1 cmake " = true.
Proof.
  intros Hparse. rewrite (main_eq OS shell argv os0 clargs Hparse).
  assert (Hbuild : Py.startswith (Py.join " " (build_arguments clargs))
                                 "cmake -E env CLICOLOR_FORCE=1 cmake " = true)
    by reflexivity.
  destruct (is_set (configure clargs)); unfold trace_of; cbn [fst snd].
  - rewrite commands_app, !commands_with_block. cbn [app].
    intros [<-|[<-|[]]]; [|exact Hbuild].
    unfold configure_arguments.
    destruct (is_set (release clargs)), (is_set (example clargs)); reflexivity.
  - rewrite commands_with_block. intros [<-|[]]. exact Hbuild.
Qed.

(** X3: the list is cleared between the two invocations: the build invocation
    has the same nine arguments whether or not configure ran, and they
    depend on the thread count only; the configure invocation depends on
    the release and example flags only. *)
Theorem invocations_depend_on_their_flags (argv1 argv2 : list string) (os1 os2 : OS)
    (clargs1 clargs2 : Namespace) :
  parse_args parser argv1 = inr clargs1 ->
  parse_args parser argv2 = inr clargs2 ->
  (threads clargs1 = threads clargs2 ->
   invocations build_site (trace_of (main OS shell argv1 os1))
   = invocations build_site (trace_of (main OS shell argv2 os2)))
  /\ (forall args,
        In args (invocations build_site (trace_of (main OS shell argv1 os1))) ->
        length args = 9)
  /\ (is_set (configure clargs1) = is_set (configure clargs2) ->
      release clargs1 = release clargs2 ->
      example clargs1 = example clargs2 ->
      invocations configure_site (trace_of (main OS shell argv1 os1))
      = invocations configure_site (trace_of (main OS shell argv2 os2))).
Proof.
  intros Hp1 Hp2.
  rewrite (main_eq OS shell argv1 os1 clargs1 Hp1), (main_eq OS shell argv2 os2 clargs2 Hp2).
  split; [|split].
  - intros Ht.
    destruct (is_set (configure clargs1)), (is_set (configure clargs2));
      unfold trace_of; cbn [fst snd];
      rewrite ?invocations_app, !invocations_with_block; cbn [eqb_Site app];
      unfold build_arguments; rewrite Ht; reflexivity.
  - intros args.
    destruct (is_set (configure clargs1)); unfold trace_of; cbn [fst snd];
      rewrite ?invocations_app, !invocations_with_block; cbn [eqb_Site app];
      intros [<-|[]]; reflexivity.
  - intros Hc Hr He. rewrite <- Hc.
    destruct (is_set (configure clargs1)); unfold trace_of; cbn [fst snd];
      rewrite ?invocations_app, !invocations_with_block; cbn [eqb_Site app];
      unfold configure_arguments; rewrite ?Hr, ?He; reflexivity.
Qed.

End Output.

(** ** Order and repetition of the flags *)




Section FlagOrder.

Variable OS : Type.
Variable shell : OS -> string -> list string * Z * OS.


End FlagOrder.

(** ** More than one thread count *)

Lemma classify_flags_only (flags : list string) :
  Forall (fun s => In s store_true_flags) flags ->
  classify parser flags = inr (map flag_item flags).
Proof.
  intros Hflags. rewrite <- (app_nil_r flags) at 1.
  rewrite (classify_flags flags [] Hflags). cbn [classify]. rewrite app_nil_r. reflexivity.
Qed.

Lemma consume_flags_only (flags : list string) (namespace : Namespace)
    (extras : list string) :
  Forall (fun s => In s store_true_flags) flags ->
  consume parser (map flag_item flags) namespace extras
  = inr (set_flags flags namespace, extras).
Proof.
  intros Hflags. rewrite <- (app_nil_r (map flag_item flags)).
  rewrite (consume_flags flags Hflags). reflexivity.
Qed.

Lemma flag_items_head_only (flags : list string) :
  match map flag_item flags with item_A _ :: _ => False | _ => True end.
Proof. destruct flags; exact I. Qed.

Lemma parse_flags_value_value (flags1 flags2 flags3 : list string)
    (opt1 value1 opt2 value2 : string) :
  Forall (fun s => In s store_true_flags) flags1 ->
  Forall (fun s => In s store_true_flags) flags2 ->
  Forall (fun s => In s store_true_flags) flags3 ->
  In opt1 threads_flags -> plain value1 ->
  In opt2 threads_flags -> plain value2 ->
  exists clargs,
    parse_args parser
      (flags1 ++ opt1 :: value1 :: flags2 ++ opt2 :: value2 :: flags3) = inr clargs
    /\ threads clargs = PyStr value2.
Proof.
  intros H1 H2 H3 Hopt1 Hplain1 Hopt2 Hplain2.
  unfold parse_args, parse_known_args.
  destruct (threads_flag_parse opt1 Hopt1)
    as [action1 [Hparse1 [Hclass1 [Hnargs1 [_ [Hdest1 [_ Hdash1]]]]]]].
  destruct (threads_flag_parse opt2 Hopt2)
    as [action2 [Hparse2 [Hclass2 [Hnargs2 [_ [Hdest2 [_ Hdash2]]]]]]].
  pose proof (plain_not_dash value1 Hplain1) as Hvalue1.
  pose proof (plain_not_dash value2 Hplain2) as Hvalue2.
  rewrite (classify_flags flags1 _ H1).
  rewrite (classify_option parser opt1 _ _ Hdash1 Hparse1).
  rewrite (classify_argument parser value1 _ Hvalue1 Hplain1).
  rewrite (classify_flags flags2 _ H2).
  rewrite (classify_option parser opt2 _ _ Hdash2 Hparse2).
  rewrite (classify_argument parser value2 _ Hvalue2 Hplain2).
  rewrite (classify_flags_only flags3 H3).
  rewrite (consume_flags flags1 H1).
  rewrite (consume_store_value parser opt1 opt1 value1 action1 _ _ _ Hclass1 Hnargs1 Hvalue1).
  rewrite (consume_flags flags2 H2).
  rewrite (consume_store_value parser opt2 opt2 value2 action2 _ _ _ Hclass2 Hnargs2 Hvalue2).
  rewrite (consume_flags_only flags3 _ _ H3), Hdest2.
  eexists. split; [reflexivity|].
  rewrite (threads_set_flags flags3 H3). reflexivity.
Qed.

Lemma parse_flags_value_const (flags1 flags2 flags3 : list string)
    (opt1 value1 opt2 : string) :
  Forall (fun s => In s store_true_flags) flags1 ->
  Forall (fun s => In s store_true_flags) flags2 ->
  Forall (fun s => In s store_true_flags) flags3 ->
  In opt1 threads_flags -> plain value1 ->
  In opt2 threads_flags ->
  exists clargs,
    parse_args parser (flags1 ++ opt1 :: value1 :: flags2 ++ opt2 :: flags3) = inr clargs
    /\ threads clargs = PyNone.
Proof.
  intros H1 H2 H3 Hopt1 Hplain1 Hopt2.
  unfold parse_args, parse_known_args.
  destruct (threads_flag_parse opt1 Hopt1)
    as [action1 [Hparse1 [Hclass1 [Hnargs1 [_ [Hdest1 [_ Hdash1]]]]]]].
  destruct (threads_flag_parse opt2 Hopt2)
    as [action2 [Hparse2 [Hclass2 [Hnargs2 [Hconst2 [Hdest2 [Hopts2 Hdash2]]]]]]].
  pose proof (plain_not_dash value1 Hplain1) as Hvalue1.
  rewrite (classify_flags flags1 _ H1).
  rewrite (classify_option parser opt1 _ _ Hdash1 Hparse1).
  rewrite (classify_argument parser value1 _ Hvalue1 Hplain1).
  rewrite (classify_flags flags2 _ H2).
  rewrite (classify_option parser opt2 _ _ Hdash2 Hparse2).
  rewrite (classify_flags_only flags3 H3).
  rewrite (consume_flags flags1 H1).
  rewrite (consume_store_value parser opt1 opt1 value1 action1 _ _ _ Hclass1 Hnargs1 Hvalue1).
  rewrite (consume_flags flags2 H2).
  rewrite (consume_store_const parser opt2 opt2 action2 _ _ _ Hclass2 Hnargs2 Hopts2
             (flag_items_head_only flags3)).
  rewrite (consume_flags_only flags3 _ _ H3), Hdest2, Hconst2.
  eexists. split; [reflexivity|].
  rewrite (threads_set_flags flags3 H3). reflexivity.
Qed.

Section LastThreads.

Variable OS : Type.
Variable shell : OS -> string -> list string * Z * OS.

Lemma build_invocation_threads (argv : list string) (os0 : OS) (clargs : Namespace) :
  parse_args parser argv = inr clargs ->
  invocations build_site (trace_of (main OS shell argv os0))
  = [["cmake"; "-E"; "env"; "CLICOLOR_FORCE=1"; "cmake"; "--build"; "build"; "--";
      "-j" ++ Py.str (threads clargs)]].
Proof.
  intros Hparse. rewrite (main_eq OS shell argv os0 clargs Hparse).
  destruct (is_set (configure clargs)); unfold trace_of; cbn [fst snd].
  - rewrite invocations_app, !invocations_with_block. reflexivity.
  - rewrite invocations_with_block. reflexivity.
Qed.

(** X5: when the thread count is given twice, the last one counts: a second
    COUNT replaces the first, and a second [-t] without a COUNT resets
    the job count to [None]. *)
Theorem last_thread_count_wins (flags1 flags2 flags3 : list string)
    (opt1 value1 opt2 value2 : string) (os0 : OS) :
  Forall (fun s => In s store_true_flags) flags1 ->
  Forall (fun s => In s store_true_flags) flags2 ->
  Forall (fun s => In s store_true_flags) flags3 ->
  In opt1 threads_flags -> plain value1 ->
  In opt2 threads_flags -> plain value2 ->
  invocations build_site
    (trace_of (main OS shell
                 (flags1 ++ opt1 :: value1 :: flags2 ++ opt2 :: value2 :: flags3) os0))
  = [["cmake"; "-E"; "env"; "CLICOLOR_FORCE=1"; "cmake"; "--build"; "build"; "--";
      "-j" ++ value2]]
  /\ invocations build_site
       (trace_of (main OS shell
                    (flags1 ++ opt1 :: value1 :: flags2 ++ opt2 :: flags3) os0))
     = [["cmake"; "-E"; "env"; "CLICOLOR_FORCE=1"; "cmake"; "--build"; "build"; "--";
         "-jNone"]].
Proof.
  intros H1 H2 H3 Hopt1 Hplain1 Hopt2 Hplain2. split.
  - destruct (parse_flags_value_value flags1 flags2 flags3 opt1 value1 opt2 value2
                H1 H2 H3 Hopt1 Hplain1 Hopt2 Hplain2) as [clargs [Hparse Hthreads]].
    rewrite (build_invocation_threads _ os0 clargs Hparse), Hthreads. reflexivity.
  - destruct (parse_flags_value_const flags1 flags2 flags3 opt1 value1 opt2
                H1 H2 H3 Hopt1 Hplain1 Hopt2) as [clargs [Hparse Hthreads]].
    rewrite (build_invocation_threads _ os0 clargs Hparse), Hthreads. reflexivity.
Qed.

End LastThreads.

(** ** Strings that the parser cannot place *)

Lemma classify_dash (self : list Action) (arg_strings : list string) :
  In "--" arg_strings ->
  forall items, classify self arg_strings = inr items ->
                exists d, In (item_dash d) items.
Proof.
  induction arg_strings as [|s rest IH]; intros Hin items; [contradiction|].
  cbn [classify]. destruct (String.eqb s "--") eqn:Hdash.
  - intros H. injection H as <-. exists s. left. reflexivity.
  - destruct Hin as [->|Hin]; [rewrite String.eqb_refl in Hdash; discriminate|].
    destruct (_parse_optional self s) as [y|parsed]; [discriminate|].
    destruct (classify self rest) as [y|items0]; [discriminate|].
    intros H. injection H as <-. destruct (IH Hin items0 eq_refl) as [d Hd].
    exists d. right. exact Hd.
Qed.

(** A parse loop that starts with something in [extras] ends in an error
    or in the help. *)
Lemma extras_refused (items : list item) (namespace : Namespace) (s : string)
    (extras : list string) :
  exists x, match consume parser items namespace (s :: extras) with
            | inl e => inl e
            | inr (namespace', []) => inr namespace'
            | inr (_, argv) => inl (error (unrecognized_arguments argv))
            end = inl x.
Proof.
  destruct (consume parser items namespace (s :: extras)) as [x|[ns extras']] eqn:Hc.
  - exists x. reflexivity.
  - apply consume_returns in Hc. destruct Hc as [[more [-> _]] _].
    cbn [app]. eexists. reflexivity.
Qed.

Lemma stray_refused (argv : list string) (items : list item) (it : item) :
  classify parser argv = inr items ->
  In it items -> stray it = true ->
  exists x, parse_args parser argv = inl x.
Proof.
  intros Hclass Hin Hstray. unfold parse_args, parse_known_args. rewrite Hclass.
  destruct (consume parser items (defaults parser) []) as [x|[ns extras]] eqn:Hc.
  - exists x. reflexivity.
  - apply consume_returns in Hc. destruct Hc as [[more [-> Hmore]] _].
    specialize (Hmore it Hin Hstray). cbn [app].
    destruct more as [|m more]; [contradiction|]. eexists. reflexivity.
Qed.

Lemma classify_unambiguous (arg_strings : list string) :
  Forall (fun s => is_ambiguous s = false) arg_strings ->
  exists items, classify parser arg_strings = inr items.
Proof.
  induction 1 as [|s rest Hs Hrest [items IH]].
  - exists []. reflexivity.
  - cbn [classify]. destruct (String.eqb s "--"); [eexists; reflexivity|].
    unfold is_ambiguous in Hs.
    destruct (_parse_optional parser s) as [y|parsed]; [discriminate|].
    rewrite IH. eexists. reflexivity.
Qed.

Lemma help_flag_parse (s : string) :
  In s help_flags ->
  exists action,
    _parse_optional parser s = inr (Some (Some action, s, None))
    /\ class action = _HelpAction
    /\ String.eqb s "--" = false.
Proof.
  intros Hin. cbn in Hin.
  repeat (destruct Hin as [<-|Hin];
          [eexists; split; [vm_compute; reflexivity|]; split; reflexivity|]).
  contradiction.
Qed.

Lemma consume_help_action (self : list Action) (s option_string : string)
    (action : Action) (rest : list item) (namespace : Namespace)
    (extras : list string) :
  class action = _HelpAction ->
  consume self (item_O s (Some action, option_string, None) :: rest) namespace extras
  = inl help_exit.
Proof.
  intros Hclass. cbn [consume]. unfold consume_following.
  cbn [app take_actions]. unfold take_action. rewrite Hclass. reflexivity.
Qed.

Section Unplaced.

Variable OS : Type.
Variable shell : OS -> string -> list string * Z * OS.

Lemma main_refused (argv : list string) (os0 : OS) (x : Exit) :
  parse_args parser argv = inl x ->
  commands (trace_of (main OS shell argv os0)) = []
  /\ os_of (main OS shell argv os0) = os0
  /\ (status_of (main OS shell argv os0) = 0%Z
      \/ status_of (main OS shell argv os0) = 2%Z).
Proof.
  intros Hparse. unfold main. rewrite Hparse.
  destruct x; cbn; repeat split; tauto.
Qed.

(** X6: the parser has no positional argument, so [--] is refused wherever it
    stands: no namespace, no process, and the state is untouched. *)
Theorem double_dash_refused (argv : list string) (os0 : OS) :
  In "--" argv ->
  (exists x, parse_args parser argv = inl x)
  /\ commands (trace_of (main OS shell argv os0)) = []
  /\ os_of (main OS shell argv os0) = os0.
Proof.
  intros Hin.
  assert (Hx : exists x, parse_args parser argv = inl x).
  { destruct (classify parser argv) as [x|items] eqn:Hclass.
    - exists x. unfold parse_args, parse_known_args. rewrite Hclass. reflexivity.
    - destruct (classify_dash parser argv Hin items Hclass) as [d Hd].
      apply (stray_refused argv items (item_dash d) Hclass Hd). reflexivity. }
  split; [exact Hx|]. destruct Hx as [x Hx].
  destruct (main_refused argv os0 x Hx) as [H1 [H2 _]]. split; assumption.
Qed.

(** X7: a string that is no option and that no [-t] takes, such as a file
    name behind the flags, makes the parser refuse the command line
    whatever follows it. *)
Theorem positional_refused (flags rest : list string) (value : string) (os0 : OS) :
  Forall (fun s => In s store_true_flags) flags ->
  plain value ->
  (exists x, parse_args parser (flags ++ value :: rest) = inl x)
  /\ commands (trace_of (main OS shell (flags ++ value :: rest) os0)) = []
  /\ os_of (main OS shell (flags ++ value :: rest) os0) = os0.
Proof.
  intros Hflags Hplain.
  assert (Hx : exists x, parse_args parser (flags ++ value :: rest) = inl x).
  { unfold parse_args, parse_known_args.
    rewrite (classify_flags flags _ Hflags).
    rewrite (classify_argument parser value rest (plain_not_dash value Hplain) Hplain).
    destruct (classify parser rest) as [x|items]; [exists x; reflexivity|].
    rewrite (consume_flags flags Hflags). cbn [consume app].
    apply extras_refused. }
  split; [exact Hx|]. destruct Hx as [x Hx].
  destruct (main_refused (flags ++ value :: rest) os0 x Hx) as [H1 [H2 _]].
  split; assumption.
Qed.

(** X8: [-h] or [--help] behind any flags: the run prints the help and exits
    with status 0 without starting a process, whatever follows, as long as
    no string of the command line is an ambiguous abbreviation. *)
Theorem help_flag_wins (flags rest : list string) (h : string) (os0 : OS) :
  Forall (fun s => In s store_true_flags) flags ->
  In h help_flags ->
  Forall (fun s => is_ambiguous s = false) rest ->
  main OS shell (flags ++ h :: rest) os0 = ([print_help], 0%Z, os0).
Proof.
  intros Hflags Hh Hrest.
  destruct (help_flag_parse h Hh) as [action [Hparse [Hclass Hdash]]].
  destruct (classify_unambiguous rest Hrest) as [items Hitems].
  unfold main, parse_args, parse_known_args.
  rewrite (classify_flags flags _ Hflags).
  rewrite (classify_option parser h _ rest Hdash Hparse), Hitems.
  rewrite (consume_flags flags Hflags).
  rewrite (consume_help_action parser h h action items _ _ Hclass). reflexivity.
Qed.

End Unplaced.

(** ** Strings that can be the COUNT *)

Lemma is_digit_not_equals (c : ascii) :
  Py.is_digit c = true -> Ascii.eqb "="%char c = false.
Proof.
  intros Hc. destruct (Ascii.eqb "="%char c) eqn:Heq; [|reflexivity].
  apply Ascii.eqb_eq in Heq. subst c. discriminate Hc.
Qed.

Lemma split1_digits (s : string) :
  Py.all_digits s = true -> Py.split1 "="%char s = None.
Proof.
  induction s as [|c s IH]; [reflexivity|].
  cbn [Py.all_digits Py.split1]. intros H. apply andb_prop in H. destruct H as [Hc Hs].
  rewrite (is_digit_not_equals c Hc), (IH Hs). reflexivity.
Qed.

Lemma is_digit_cases (c : ascii) :
  Py.is_digit c = true ->
  In c ["0"; "1"; "2"; "3"; "4"; "5"; "6"; "7"; "8"; "9"]%char.
Proof.
  destruct c as [[] [] [] [] [] [] [] []]; intros H; try discriminate H; cbn; tauto.
Qed.

(** A string that does not start with [-] is an argument. *)
Lemma plain_without_dash (value : string) :
  starts_with_dash value = false -> plain value.
Proof.
  unfold plain, _parse_optional. destruct value as [|c tail]; [reflexivity|].
  cbn [starts_with_dash]. intros Hc.
  cbn [Py.contains prefix_chars]. rewrite Hc. reflexivity.
Qed.

(** A negative integer, [-] followed by digits, is an argument too: no
    option of the parser looks like a negative number. *)
Lemma plain_negative_integer (digits : string) :
  Py.digits1 digits = true -> plain ("-" ++ digits).
Proof.
  unfold plain. destruct digits as [|c rest]; [discriminate|].
  cbn [Py.digits1 Py.all_digits]. intros H.
  apply andb_prop in H. destruct H as [Hc Hrest].
  pose proof (split1_digits rest Hrest) as Hsplit.
  assert (Hmatch : _negative_number_matcher ("-" ++ String c rest) = true).
  { cbn [append _negative_number_matcher]. unfold Py.ends.
    cbn [Py.digits1 Py.all_digits]. rewrite Hc, Hrest. reflexivity. }
  apply is_digit_cases in Hc. cbn [In] in Hc.
  repeat (destruct Hc as [<-|Hc];
          [unfold _parse_optional; cbn -[_negative_number_matcher];
           rewrite Hsplit; cbn -[_negative_number_matcher];
           cbn [append] in Hmatch; rewrite Hmatch; reflexivity|]).
  contradiction.
Qed.

Section Counts.

Variable OS : Type.
Variable shell : OS -> string -> list string * Z * OS.

(** X9: every string that does not start with [-], and every negative
    integer, is accepted behind [-t] or [--threads] and becomes the text
    after [-j] unchanged: numbers, words, the empty string, strings with
    spaces or shell metacharacters. *)
Theorem count_accepted (flags1 flags2 : list string) (opt value : string) (os0 : OS) :
  Forall (fun s => In s store_true_flags) flags1 ->
  Forall (fun s => In s store_true_flags) flags2 ->
  In opt threads_flags ->
  starts_with_dash value = false
  \/ (exists digits, Py.digits1 digits = true /\ value = "-" ++ digits) ->
  invocations build_site
    (trace_of (main OS shell (flags1 ++ opt :: value :: flags2) os0))
  = [["cmake"; "-E"; "env"; "CLICOLOR_FORCE=1"; "cmake"; "--build"; "build"; "--";
      "-j" ++ value]].
Proof.
  intros H1 H2 Hopt Hvalue.
  assert (Hplain : plain value).
  { destruct Hvalue as [Hd|[digits [Hd ->]]].
    - apply plain_without_dash. exact Hd.
    - apply plain_negative_integer. exact Hd. }
  rewrite (build_invocation_threads OS shell _ os0 _
             (parse_flags_value flags1 flags2 opt value H1 H2 Hopt Hplain)).
  rewrite (threads_set_flags flags2 H2). reflexivity.
Qed.

End Counts.

(** ** Abbreviations of the long flags *)

Lemma startswith_prefixes (long : string) :
  forall s, Py.startswith long s = true -> In s (prefixes long).
Proof.
  unfold Py.startswith.
  induction long as [|c long IH]; intros s.
  - destruct s as [|a s]; [intros _; left; reflexivity | discriminate].
  - destruct s as [|a s]; [intros _; left; reflexivity|].
    cbn [String.prefix prefixes]. destruct (ascii_dec a c) as [->|Hne]; [|discriminate].
    intros H. right. apply in_map. apply IH. exact H.
Qed.

Lemma abbreviation_parse (long s : string) (n : nat) :
  In (long, n) abbreviations ->
  Py.startswith long s = true ->
  n <= String.length s ->
  exists action,
    _parse_optional parser s = inr (Some (Some action, long, None))
    /\ lookup long (_option_string_actions parser) = Some action
    /\ class action = _StoreTrueAction
    /\ nargs action = nargs_0
    /\ String.eqb s "--" = false.
Proof.
  intros Hlong Hprefix Hlen. cbn in Hlong.
  repeat (destruct Hlong as [Heq|Hlong];
          [injection Heq as <- <-; apply startswith_prefixes in Hprefix;
           cbn [prefixes map] in Hprefix;
           repeat (destruct Hprefix as [<-|Hprefix];
                   [first [ exfalso; cbn in Hlen; lia
                          | eexists; split; [vm_compute; reflexivity|];
                            split; [vm_compute; reflexivity|];
                            split; [reflexivity|]; split; reflexivity ]|]);
           contradiction|]).
  contradiction.
Qed.

Lemma set_flags_app (flags1 flags2 : list string) (namespace : Namespace) :
  set_flags (flags1 ++ flags2) namespace = set_flags flags2 (set_flags flags1 namespace).
Proof. apply fold_left_app. Qed.

Section Abbreviations.

Variable OS : Type.
Variable shell : OS -> string -> list string * Z * OS.

(** X10: a long flag can be cut short: every beginning of [--configure] or
    [--release] from three characters on, and every beginning of
    [--install] or [--include-example] from five characters on, stands for
    the flag, among any flags: the run is the one of the full name. *)
Theorem abbreviation_accepted (long s : string) (n : nat) (flags1 flags2 : list string)
    (os0 : OS) :
  In (long, n) abbreviations ->
  Py.startswith long s = true ->
  n <= String.length s ->
  Forall (fun s => In s store_true_flags) flags1 ->
  Forall (fun s => In s store_true_flags) flags2 ->
  parse_args parser (flags1 ++ s :: flags2) = parse_args parser (flags1 ++ long :: flags2)
  /\ main OS shell (flags1 ++ s :: flags2) os0 = main OS shell (flags1 ++ long :: flags2) os0.
Proof.
  intros Hlong Hprefix Hlen H1 H2.
  destruct (abbreviation_parse long s n Hlong Hprefix Hlen)
    as [action [Hparse [Hlook [Hclass [Hnargs Hdash]]]]].
  assert (Hfull : In long store_true_flags).
  { cbn in Hlong. destruct Hlong as [Heq|[Heq|[Heq|[Heq|[]]]]];
      injection Heq as <- _; cbn; tauto. }
  assert (Hparse_full :
    parse_args parser (flags1 ++ long :: flags2)
    = inr (set_flags flags2
             (setattr (set_flags flags1 (defaults parser)) (dest action) (const action)))).
  { assert (Hall : Forall (fun s => In s store_true_flags) (flags1 ++ long :: flags2)).
    { apply Forall_app. split; [exact H1 | constructor; assumption]. }
    rewrite (parse_flags _ Hall), set_flags_app.
    cbn [set_flags fold_left]. rewrite Hlook. reflexivity. }
  assert (Hparse_short :
    parse_args parser (flags1 ++ s :: flags2)
    = inr (set_flags flags2
             (setattr (set_flags flags1 (defaults parser)) (dest action) (const action)))).
  { unfold parse_args, parse_known_args.
    rewrite (classify_flags flags1 _ H1).
    rewrite (classify_option parser s _ flags2 Hdash Hparse).
    rewrite (classify_flags_only flags2 H2).
    rewrite (consume_flags flags1 H1).
    rewrite (consume_store_true parser s long action _ _ _ Hclass Hnargs).
    rewrite (consume_flags_only flags2 _ _ H2). reflexivity. }
  split; [rewrite Hparse_short, Hparse_full; reflexivity|].
  unfold main. rewrite Hparse_short, Hparse_full. reflexivity.
Qed.

(** X11: [--i] and [--in] fit both [--install] and [--include-example]: the
    parser refuses the command line with the error "ambiguous option",
    exit status 2, whatever else is on it, and nothing is run. *)
Theorem ambiguous_abbreviation_refused (flags rest : list string) (s : string) (os0 : OS) :
  Forall (fun s => In s store_true_flags) flags ->
  In s ["--i"; "--in"] ->
  main OS shell (flags ++ s :: rest) os0
  = ([print_usage;
      print_error (ambiguous_option s ["--install"; "--include-example"])],
     2%Z, os0).
Proof.
  intros Hflags Hs.
  assert (Hparse : _parse_optional parser s
                   = inl (error (ambiguous_option s ["--install"; "--include-example"]))
                   /\ String.eqb s "--" = false).
  { destruct Hs as [<-|[<-|[]]]; split; vm_compute; reflexivity. }
  destruct Hparse as [Hparse Hdash].
  unfold main, parse_args, parse_known_args.
  rewrite (classify_flags flags _ Hflags). cbn [classify]. rewrite Hdash, Hparse.
  reflexivity.
Qed.

End Abbreviations.

(** ** Instances of the further properties *)


Lemma commands_force_colour_witness :
  parse_args parser scenario_argv = inr scenario_clargs
  /\ Py.startswith "cmake -E env CLICOLOR_FORCE=1 cmake --build build -- -j4"
                   "cmake -E env CLICOLOR_FORCE=1 cmake " = true.
Proof.
  split; [vm_compute; reflexivity|].
  apply (commands_force_colour (list string) (log_shell 0) scenario_argv []
           scenario_clargs).
  - vm_compute. reflexivity.
  - right. left. vm_compute. reflexivity.
Defined.

Lemma invocations_depend_on_their_flags_witness :
  parse_args parser scenario_argv = inr scenario_clargs
  /\ parse_args parser ["-t"; "4"]
     = inr (mkNamespace (PyBool false) (PyBool false) (PyBool false) (PyStr "4")
                        (PyBool false))
  /\ invocations build_site (trace_of (logged_run 0 scenario_argv))
     = invocations build_site (trace_of (logged_run 0 ["-t"; "4"])).
Proof.
  split; [vm_compute; reflexivity|]. split; [vm_compute; reflexivity|].
  destruct (invocations_depend_on_their_flags (list string) (log_shell 0)
              scenario_argv ["-t"; "4"] [] [] scenario_clargs
              (mkNamespace (PyBool false) (PyBool false) (PyBool false) (PyStr "4")
                           (PyBool false))) as [H1 _].
  - vm_compute. reflexivity.
  - vm_compute. reflexivity.
  - apply H1. reflexivity.
Defined.


Lemma last_thread_count_wins_witness :
  plain "2" /\ plain "8"
  /\ invocations build_site
       (trace_of (logged_run 0 ["-t"; "2"; "-c"; "--threads"; "8"]))
     = [["cmake"; "-E"; "env"; "CLICOLOR_FORCE=1"; "cmake"; "--build"; "build"; "--";
         "-j8"]].
Proof.
  assert (H2 : plain "2") by (vm_compute; reflexivity).
  assert (H8 : plain "8") by (vm_compute; reflexivity).
  split; [exact H2|]. split; [exact H8|].
  destruct (last_thread_count_wins (list string) (log_shell 0)
              [] ["-c"] [] "-t" "2" "--threads" "8" []) as [H _].
  - constructor.
  - constructor; [cbn; tauto | constructor].
  - constructor.
  - cbn. tauto.
  - exact H2.
  - cbn. tauto.
  - exact H8.
  - exact H.
Defined.

Lemma double_dash_refused_witness :
  commands (trace_of (logged_run 0 ["-c"; "--"; "x"])) = []
  /\ os_of (logged_run 0 ["-c"; "--"; "x"]) = [].
Proof.
  destruct (double_dash_refused (list string) (log_shell 0) ["-c"; "--"; "x"] [])
    as [_ H]; [cbn; tauto|].
  exact H.
Defined.

Lemma positional_refused_witness :
  plain "extra"
  /\ commands (trace_of (logged_run 0 ["-c"; "extra"; "-r"])) = [].
Proof.
  assert (Hplain : plain "extra") by (vm_compute; reflexivity).
  split; [exact Hplain|].
  destruct (positional_refused (list string) (log_shell 0) ["-c"] ["-r"] "extra" [])
    as [_ [H _]].
  - constructor; [cbn; tauto | constructor].
  - exact Hplain.
  - exact H.
Defined.

Lemma help_flag_wins_witness :
  logged_run 0 ["-c"; "--help"; "--bogus"; "stray"] = ([print_help], 0%Z, []).
Proof.
  apply (help_flag_wins (list string) (log_shell 0) ["-c"] ["--bogus"; "stray"]
           "--help" []).
  - constructor; [cbn; tauto | constructor].
  - cbn. tauto.
  - repeat (constructor; [vm_compute; reflexivity|]). constructor.
Defined.

Lemma count_accepted_witness :
  invocations build_site (trace_of (logged_run 0 ["-c"; "-t"; "-5"]))
  = [["cmake"; "-E"; "env"; "CLICOLOR_FORCE=1"; "cmake"; "--build"; "build"; "--";
      "-j-5"]].
Proof.
  apply (count_accepted (list string) (log_shell 0) ["-c"] [] "-t" "-5" []).
  - constructor; [cbn; tauto | constructor].
  - constructor.
  - cbn. tauto.
  - right. exists "5". split; reflexivity.
Defined.

Lemma abbreviation_accepted_witness :
  logged_run 0 ["-c"; "--inc"] = logged_run 0 ["-c"; "--include-example"].
Proof.
  destruct (abbreviation_accepted (list string) (log_shell 0)
              "--include-example" "--inc" 5 ["-c"] [] []) as [_ H].
  - cbn. tauto.
  - reflexivity.
  - cbn. lia.
  - constructor; [cbn; tauto | constructor].
  - constructor.
  - exact H.
Defined.

Lemma ambiguous_abbreviation_refused_witness :
  logged_run 0 ["-c"; "--in"; "-r"]
  = ([print_usage;
      print_error (ambiguous_option "--in" ["--install"; "--include-example"])],
     2%Z, []).
Proof.
  apply (ambiguous_abbreviation_refused (list string) (log_shell 0) ["-c"] ["-r"]
           "--in" []).
  - constructor; [cbn; tauto | constructor].
  - cbn. tauto.
Defined.

(** ** The types of the attributes *)

Lemma lookup_in (self : list Action) (key : string) (action : Action) :
  lookup key (_option_string_actions self) = Some action -> In action self.
Proof.
  assert (Hgen : forall d, lookup key d = Some action -> In action (map snd d)).
  { induction d as [|[k a] d IH]; [discriminate|].
    cbn [lookup map snd]. destruct (String.eqb k key).
    - intros H. injection H as ->. left. reflexivity.
    - intros H. right. apply IH. exact H. }
  intros H. apply Hgen in H. apply in_map_iff in H. destruct H as [[k a] [Ha Hin]].
  cbn in Ha. subst a. unfold _option_string_actions in Hin.
  apply in_flat_map in Hin. destruct Hin as [a [Hself Hin]].
  apply in_map_iff in Hin. destruct Hin as [s [Heq _]]. injection Heq as _ <-.
  exact Hself.
Qed.

Lemma table_in (self : list Action) (kv : string * Action) :
  In kv (_option_string_actions self) -> In (snd kv) self.
Proof.
  unfold _option_string_actions. intros Hin.
  apply in_flat_map in Hin. destruct Hin as [a [Hself Hin]].
  apply in_map_iff in Hin. destruct Hin as [s [<- _]]. exact Hself.
Qed.

Lemma _get_option_tuples_known (self : list Action) (option_string : string)
    (tuples : list option_tuple) :
  _get_option_tuples self option_string = inr tuples ->
  forall action os e, In (Some action, os, e) tuples -> In action self.
Proof.
  unfold _get_option_tuples.
  destruct option_string as [|c0 [|c1 tail]]; try discriminate.
  destruct (Py.contains c0 prefix_chars && Py.contains c1 prefix_chars).
  - destruct (Py.split1 "="%char (String c0 (String c1 tail))) as [[p x]|];
      intros H; injection H as <-; intros action os e Hin;
      apply in_flat_map in Hin; destruct Hin as [kv [Hkv Hin]];
      destruct (Py.startswith (fst kv) _); try contradiction;
      destruct Hin as [Heq|[]]; injection Heq as <- _ _; apply table_in; exact Hkv.
  - destruct (Py.contains c0 prefix_chars && negb (Py.contains c1 prefix_chars));
      [|discriminate].
    intros H. injection H as <-. intros action os e Hin.
    apply in_flat_map in Hin. destruct Hin as [kv [Hkv Hin]].
    destruct (String.eqb (fst kv) _).
    + destruct Hin as [Heq|[]]. injection Heq as <- _ _. apply table_in. exact Hkv.
    + destruct (Py.startswith (fst kv) _); try contradiction.
      destruct Hin as [Heq|[]]. injection Heq as <- _ _. apply table_in. exact Hkv.
Qed.

(** The action of an option tuple is an action of the parser. *)
Lemma _parse_optional_known (self : list Action) (arg_string : string)
    (action : Action) (os : string) (e : option string) :
  _parse_optional self arg_string = inr (Some (Some action, os, e)) ->
  In action self.
Proof.
  unfold _parse_optional.
  destruct arg_string as [|c0 tail]; [discriminate|].
  destruct (negb (Py.contains c0 prefix_chars)); [discriminate|].
  destruct (lookup (String c0 tail) (_option_string_actions self)) as [a|] eqn:Hlook.
  { intros H. injection H as <- _ _. apply (lookup_in self _ _ Hlook). }
  destruct tail as [|c1 tail]; [discriminate|].
  destruct (Py.split1 "="%char (String c0 (String c1 tail))) as [[p x]|].
  - destruct (lookup p (_option_string_actions self)) as [a|] eqn:Hp.
    + intros H. injection H as <- _ _. apply (lookup_in self _ _ Hp).
    + destruct (_get_option_tuples self (String c0 (String c1 tail)))
        as [y|[|t1 [|t2 more]]] eqn:Htuples; try discriminate.
      * destruct (_negative_number_matcher _ && negb _); [discriminate|].
        destruct (Py.contains " "%char _); discriminate.
      * intros H. injection H as ->.
        apply (_get_option_tuples_known self _ _ Htuples action os e). left. reflexivity.
  - destruct (_get_option_tuples self (String c0 (String c1 tail)))
      as [y|[|t1 [|t2 more]]] eqn:Htuples; try discriminate.
    + destruct (_negative_number_matcher _ && negb _); [discriminate|].
      destruct (Py.contains " "%char _); discriminate.
    + intros H. injection H as ->.
      apply (_get_option_tuples_known self _ _ Htuples action os e). left. reflexivity.
Qed.

Lemma consume_following_good (self : list Action) (action : Action)
    (option_string : string) (following : list item) (acc tuples : list action_tuple)
    (n : nat) :
  In action self ->
  Forall (good_tuple self) acc ->
  consume_following action option_string following acc = inr (tuples, n) ->
  Forall (good_tuple self) tuples.
Proof.
  intros Hin Hacc. unfold consume_following. intros H. injection H as <- _.
  apply Forall_app. split; [exact Hacc|]. constructor; [|constructor].
  split; [exact Hin|]. cbn [fst snd].
  etransitivity; [apply firstn_le_length|].
  unfold _match_argument. destruct (nargs action); [lia|].
  destruct (Py.startswith _ "A"); lia.
Qed.

(** The tuples that the loop over an explicit argument collects hold
    actions of the parser, each with one argument string at most. *)
Lemma consume_explicit_good (self : list Action) (explicit_arg : string) :
  forall (action : Action) (option_string : string) (following : list item)
         (acc tuples : list action_tuple) (n : nat),
    In action self ->
    Forall (good_tuple self) acc ->
    consume_explicit self action option_string explicit_arg following acc
    = inr (tuples, n) ->
    Forall (good_tuple self) tuples.
Proof.
  assert (Hone : forall action option_string e acc,
             In action self -> Forall (good_tuple self) acc ->
             Forall (good_tuple self) (acc ++ [(action, [e], option_string)])).
  { intros action option_string e acc Hin Hacc. apply Forall_app.
    split; [exact Hacc|]. constructor; [|constructor]. split; [exact Hin | cbn; lia]. }
  induction explicit_arg as [|c new IH];
    intros action option_string following acc tuples n Hin Hacc.
  - cbn [consume_explicit].
    destruct (_match_argument action "A" =? 1)%nat; [|discriminate].
    intros H. injection H as <- _. apply Hone; assumption.
  - cbn [consume_explicit].
    destruct ((_match_argument action "A" =? 0)%nat &&
              match option_string with
              | String _ (String c1 _) => negb (Py.contains c1 prefix_chars)
              | _ => false
              end).
    + destruct (lookup _ (_option_string_actions self)) as [action'|] eqn:Hlook;
        [|discriminate].
      assert (Hacc' : Forall (good_tuple self) (acc ++ [(action, [], option_string)])).
      { apply Forall_app. split; [exact Hacc|]. constructor; [|constructor].
        split; [exact Hin | cbn; lia]. }
      pose proof (lookup_in self _ _ Hlook) as Hin'.
      destruct new as [|c' new'].
      * apply (consume_following_good self action' _ following _ tuples n Hin' Hacc').
      * apply (IH action' _ following _ tuples n Hin' Hacc').
    + destruct (_match_argument action "A" =? 1)%nat; [|discriminate].
      intros H. injection H as <- _. apply Hone; assumption.
Qed.

Lemma take_action_typed (namespace : Namespace) (action : Action) (args : list string) :
  In action parser ->
  length args <= 1 ->
  well_typed namespace = true ->
  match take_action namespace action args with
  | inr namespace' => well_typed namespace' = true
  | inl _ => True
  end.
Proof.
  intros Hin Hlen Htyped. destruct namespace as [c r i t e].
  unfold well_typed in *. cbn [configure release install threads example] in *.
  cbn in Hin.
  destruct Hin as [<-|[<-|[<-|[<-|[<-|[<-|[]]]]]]]; unfold take_action; cbn;
    try exact I;
    repeat (apply andb_prop in Htyped; destruct Htyped as [Htyped ?]);
    repeat (apply andb_true_intro; split); try assumption; try reflexivity.
  destruct args as [|x [|y args]].
  - reflexivity.
  - cbn. destruct (String.eqb x "--"); reflexivity.
  - cbn in Hlen. lia.
Qed.

Lemma take_actions_typed (tuples : list action_tuple) :
  forall namespace namespace',
    Forall (good_tuple parser) tuples ->
    well_typed namespace = true ->
    take_actions namespace tuples = inr namespace' ->
    well_typed namespace' = true.
Proof.
  induction tuples as [|[[action args] option_string] more IH];
    intros namespace namespace' Hgood Htyped.
  - cbn. intros H. injection H as <-. exact Htyped.
  - cbn [take_actions]. inversion Hgood as [|t l [Hin Hlen] Hmore]. subst t l.
    cbn [fst snd action_of] in Hin, Hlen.
    pose proof (take_action_typed namespace action args Hin Hlen Htyped) as Hstep.
    destruct (take_action namespace action args) as [x|namespace1]; [discriminate|].
    apply IH; assumption.
Qed.

Lemma consume_typed_bounded (bound : nat) :
  forall (items : list item),
    length items <= bound ->
    (forall s action os e, In (item_O s (Some action, os, e)) items -> In action parser) ->
    forall namespace extras namespace' extras',
      well_typed namespace = true ->
      consume parser items namespace extras = inr (namespace', extras') ->
      well_typed namespace' = true.
Proof.
  induction bound as [|bound IH];
    intros items Hlen Hknown namespace extras namespace' extras' Htyped;
    (destruct items as [|it rest];
     [cbn; intros H; injection H as <- _; exact Htyped|]).
  - cbn [length] in Hlen. lia.
  - cbn [length] in Hlen. apply le_S_n in Hlen.
    assert (Hrest : forall s action os e,
               In (item_O s (Some action, os, e)) rest -> In action parser).
    { intros s action os e Hin. apply (Hknown s action os e). right. exact Hin. }
    destruct it as [s|s|s [[[action|] option_string] explicit_arg]];
      try (cbn [consume]; apply (IH rest Hlen Hrest); exact Htyped).
    cbn [consume].
    assert (Hin : In action parser).
    { apply (Hknown s action option_string explicit_arg). left. reflexivity. }
    destruct (match explicit_arg with
              | Some e => consume_explicit parser action option_string e rest []
              | None => consume_following action option_string rest []
              end) as [x|[tuples n]] eqn:Hopt; [discriminate|].
    assert (Hgood : Forall (good_tuple parser) tuples).
    { destruct explicit_arg as [e|].
      - apply (consume_explicit_good parser e action option_string rest [] tuples n
                 Hin (Forall_nil _) Hopt).
      - apply (consume_following_good parser action option_string rest [] tuples n
                 Hin (Forall_nil _) Hopt). }
    destruct (take_actions namespace tuples) as [x|namespace1] eqn:Htake; [discriminate|].
    pose proof (take_actions_typed tuples namespace namespace1 Hgood Htyped Htake)
      as Htyped1.
    destruct n as [|n].
    + apply (IH rest Hlen Hrest). exact Htyped1.
    + destruct rest as [|it1 rest'].
      * apply (IH [] Hlen Hrest). exact Htyped1.
      * apply (IH rest'); [cbn [length] in Hlen; lia| |exact Htyped1].
        intros s' a' os' e' Hin'. apply (Hrest s' a' os' e'). right. exact Hin'.
Qed.

(** X12: whatever the command line, the namespace that the parser returns
    is well typed: [configure], [release], [install] and [example] are
    [True] or [False], and [threads] is the default [1], [None] or a
    string, never a list. *)
Theorem namespace_well_typed (argv : list string) (clargs : Namespace) :
  parse_args parser argv = inr clargs ->
  (exists b, configure clargs = PyBool b)
  /\ (exists b, release clargs = PyBool b)
  /\ (exists b, install clargs = PyBool b)
  /\ (exists b, example clargs = PyBool b)
  /\ (threads clargs = PyInt 1 \/ threads clargs = PyNone
      \/ exists s, threads clargs = PyStr s).
Proof.
  intros Hparse.
  assert (Htyped : well_typed clargs = true).
  { unfold parse_args, parse_known_args in Hparse.
    destruct (classify parser argv) as [x|items] eqn:Hclass; [discriminate|].
    destruct (consume parser items (defaults parser) []) as [x|[ns extras]] eqn:Hc;
      [discriminate|].
    destruct extras; [|discriminate]. injection Hparse as ->.
    apply (consume_typed_bounded (length items) items (le_n _)) in Hc;
      [exact Hc | | reflexivity].
    intros s action os e Hin.
    destruct (classify_items parser argv items Hclass _ Hin) as [_ Htuple].
    apply (_parse_optional_known parser s action os e). apply Htuple. reflexivity. }
  destruct clargs as [c r i t e]. unfold well_typed in Htyped.
  cbn [configure release install threads example] in *.
  repeat (apply andb_prop in Htyped; destruct Htyped as [Htyped ?]).
  repeat split.
  - destruct c; try discriminate. eexists. reflexivity.
  - destruct r; try discriminate. eexists. reflexivity.
  - destruct i; try discriminate. eexists. reflexivity.
  - destruct e; try discriminate. eexists. reflexivity.
  - destruct t as [b|z| |s|l]; try discriminate.
    + left. cbn in H. apply Z.eqb_eq in H. subst z. reflexivity.
    + right. left. reflexivity.
    + right. right. eexists. reflexivity.
Qed.

Lemma namespace_well_typed_witness :
  parse_args parser scenario_argv = inr scenario_clargs
  /\ (exists b, configure scenario_clargs = PyBool b)
  /\ (threads scenario_clargs = PyInt 1 \/ threads scenario_clargs = PyNone
      \/ exists s, threads scenario_clargs = PyStr s).
Proof.
  split; [vm_compute; reflexivity|].
  destruct (namespace_well_typed scenario_argv scenario_clargs) as [H1 [_ [_ [_ H5]]]];
    [vm_compute; reflexivity|].
  split; [exact H1 | exact H5].
Defined.

(** ** Short flags behind one dash *)

Lemma split1_short (a b : ascii) (s : string) :
  Ascii.eqb "="%char a = false ->
  Ascii.eqb "="%char b = false ->
  Py.split1 "="%char (String "-" (String a (String b s)))
  = match Py.split1 "="%char s with
    | Some (l, r) => Some (String "-" (String a (String b l)), r)
    | None => None
    end.
Proof.
  intros Ha Hb. cbn [Py.split1]. rewrite Ha, Hb.
  change (Ascii.eqb "="%char "-"%char) with false. cbv iota.
  destruct (Py.split1 "="%char s) as [[l r]|]; reflexivity.
Qed.

(** [-a] with more characters behind it, the first of them not [=]: the
    option is [-a] and the rest is its explicit argument. *)
Lemma short_parse (a b : ascii) (s : string) :
  In a ("t"%char :: short_letters) ->
  Ascii.eqb "="%char b = false ->
  exists action,
    lookup (short_flag a) (_option_string_actions parser) = Some action
    /\ _parse_optional parser (String "-" (String a (String b s)))
       = inr (Some (Some action, short_flag a, Some (String b s)))
    /\ String.eqb (String "-" (String a (String b s))) "--" = false.
Proof.
  intros Ha Hb. cbn in Ha.
  destruct Ha as [<-|[<-|[<-|[<-|[]]]]];
    (eexists; split; [vm_compute; reflexivity|]; split; [|reflexivity]);
    unfold _parse_optional;
    change (negb (Py.contains "-"%char prefix_chars)) with false; cbv iota;
    (match goal with
     | |- context [lookup (String "-" (String ?a (String b s))) ?tbl] =>
         assert (Hl : forall b s, lookup (String "-" (String a (String b s))) tbl = None)
           by (intros; reflexivity)
     end);
    rewrite Hl, split1_short by (reflexivity || exact Hb);
    (destruct (Py.split1 "="%char s) as [[l r]|]; [rewrite Hl|]); reflexivity.
Qed.

Lemma short_flag_action (a : ascii) :
  In a short_letters ->
  exists action,
    lookup (short_flag a) (_option_string_actions parser) = Some action
    /\ class action = _StoreTrueAction
    /\ nargs action = nargs_0
    /\ In (short_flag a) store_true_flags.
Proof.
  intros Ha. cbn in Ha.
  destruct Ha as [<-|[<-|[<-|[]]]]; eexists;
    (split; [vm_compute; reflexivity|]); (split; [reflexivity|]);
    (split; [reflexivity|]); cbn; tauto.
Qed.

Lemma short_flags_known (letters : list ascii) :
  Forall (fun c => In c short_letters) letters ->
  Forall (fun s => In s store_true_flags) (map short_flag letters).
Proof.
  induction 1 as [|c letters Hc Hletters IH]; [constructor|].
  cbn [map]. constructor; [|exact IH].
  destruct (short_flag_action c Hc) as [action [_ [_ [_ Hflag]]]]. exact Hflag.
Qed.

(** The loop of [consume_optional] over the letters of a group of short
    flags: one action tuple for each letter, nothing taken from the
    strings that follow. *)
Lemma cluster_tuples (following : list item) :
  forall (letters : list ascii) (a : ascii) (action : Action) (acc : list action_tuple),
    In a short_letters ->
    lookup (short_flag a) (_option_string_actions parser) = Some action ->
    letters <> [] ->
    Forall (fun c => In c short_letters) letters ->
    exists tuples,
      consume_explicit parser action (short_flag a) (string_of_list_ascii letters)
        following acc
      = inr ((acc ++ tuples)%list, 0)
      /\ forall namespace,
           take_actions namespace tuples
           = inr (set_flags (map short_flag (a :: letters)) namespace).
Proof.
  induction letters as [|b letters IH]; intros a action acc Ha Hlook Hne Hletters;
    [contradiction|].
  inversion Hletters as [|x l Hb Hrest]. subst x l.
  destruct (short_flag_action a Ha) as [action0 [Hlook0 [Hclass [Hnargs Hflag]]]].
  rewrite Hlook in Hlook0. injection Hlook0 as <-.
  destruct (short_flag_action b Hb) as [action' [Hlook' [Hclass' [Hnargs' Hflag']]]].
  cbn [string_of_list_ascii consume_explicit].
  unfold _match_argument at 1. rewrite Hnargs.
  unfold short_flag at 1 2.
  assert (Hsingle : negb (Py.contains a prefix_chars) = true).
  { cbn in Ha. destruct Ha as [<-|[<-|[<-|[]]]]; reflexivity. }
  rewrite Hsingle. cbn [Nat.eqb andb].
  change (String "-" (String b EmptyString)) with (short_flag b). rewrite Hlook'.
  destruct letters as [|b' letters'].
  - cbn [string_of_list_ascii]. unfold consume_following, _match_argument.
    rewrite Hnargs'. cbn [firstn]. rewrite <- app_assoc.
    eexists. split; [reflexivity|].
    intros namespace. cbn [app take_actions map set_flags fold_left].
    unfold take_action. rewrite Hclass, Hclass', Hlook, Hlook'. reflexivity.
  - destruct (IH b action' (acc ++ [(action, [], short_flag a)])%list Hb Hlook'
                ltac:(discriminate) Hrest) as [tuples [Hloop Htake]].
    cbn [string_of_list_ascii] in Hloop |- *.
    exists ((action, [], short_flag a) :: tuples).
    split; [etransitivity; [exact Hloop|]; rewrite <- app_assoc; reflexivity|].
    intros namespace. cbn [app take_actions]. unfold take_action at 1. rewrite Hclass.
    rewrite Htake. cbn [map set_flags fold_left]. rewrite Hlook. reflexivity.
Qed.

Lemma consume_cluster (s : string) (a : ascii) (letters : list ascii) (action : Action)
    (rest : list item) (namespace : Namespace) (extras : list string) :
  In a short_letters ->
  lookup (short_flag a) (_option_string_actions parser) = Some action ->
  letters <> [] ->
  Forall (fun c => In c short_letters) letters ->
  consume parser
    (item_O s (Some action, short_flag a, Some (string_of_list_ascii letters)) :: rest)
    namespace extras
  = consume parser rest (set_flags (map short_flag (a :: letters)) namespace) extras.
Proof.
  intros Ha Hlook Hne Hletters. cbn [consume].
  destruct (cluster_tuples rest letters a action [] Ha Hlook Hne Hletters)
    as [tuples [Hloop Htake]].
  rewrite Hloop. cbn [app]. rewrite Htake. reflexivity.
Qed.

Lemma parse_cluster (flags1 flags2 : list string) (letters : list ascii) :
  Forall (fun s => In s store_true_flags) flags1 ->
  Forall (fun s => In s store_true_flags) flags2 ->
  letters <> [] ->
  Forall (fun c => In c short_letters) letters ->
  parse_args parser (flags1 ++ cluster letters :: flags2)
  = parse_args parser (flags1 ++ map short_flag letters ++ flags2).
Proof.
  intros H1 H2 Hne Hletters.
  pose proof (short_flags_known letters Hletters) as Hshort.
  assert (Hall : Forall (fun s => In s store_true_flags)
                   (flags1 ++ map short_flag letters ++ flags2)).
  { apply Forall_app. split; [exact H1|]. apply Forall_app. split; assumption. }
  rewrite (parse_flags _ Hall), !set_flags_app.
  destruct letters as [|a [|b letters]]; [contradiction| |].
  - assert (Hflag : Forall (fun s => In s store_true_flags)
                      (flags1 ++ cluster [a] :: flags2)).
    { apply Forall_app. split; [exact H1|]. constructor; [|exact H2].
      inversion Hshort. assumption. }
    rewrite (parse_flags _ Hflag), set_flags_app. reflexivity.
  - inversion Hletters as [|x l Ha Hrest]. subst x l.
    inversion Hrest as [|x l Hb _]. subst x l.
    assert (Heq : Ascii.eqb "="%char b = false).
    { cbn in Hb. destruct Hb as [<-|[<-|[<-|[]]]]; reflexivity. }
    destruct (short_parse a b (string_of_list_ascii letters) (or_intror Ha) Heq)
      as [action [Hlook [Hparse Hdash]]].
    unfold parse_args, parse_known_args.
    rewrite (classify_flags flags1 _ H1).
    unfold cluster. cbn [string_of_list_ascii].
    rewrite (classify_option parser _ _ flags2 Hdash Hparse).
    rewrite (classify_flags_only flags2 H2).
    rewrite (consume_flags flags1 H1).
    rewrite (consume_cluster _ a (b :: letters) action _ _ _ Ha Hlook
               ltac:(discriminate) Hrest).
    rewrite (consume_flags_only flags2 _ _ H2). reflexivity.
Qed.




Section ShortFlags.

Variable OS : Type.
Variable shell : OS -> string -> list string * Z * OS.

(** X13: the short flags [-c], [-r] and [-i] can be written behind one
    dash: [-cri], or any other row of these letters, among any flags,
    gives the namespace and the run of the letters written one by one. *)
Theorem short_flags_grouped (flags1 flags2 : list string) (letters : list ascii)
    (os0 : OS) :
  Forall (fun s => In s store_true_flags) flags1 ->
  Forall (fun s => In s store_true_flags) flags2 ->
  letters <> [] ->
  Forall (fun c => In c short_letters) letters ->
  parse_args parser (flags1 ++ cluster letters :: flags2)
  = parse_args parser (flags1 ++ map short_flag letters ++ flags2)
  /\ main OS shell (flags1 ++ cluster letters :: flags2) os0
     = main OS shell (flags1 ++ map short_flag letters ++ flags2) os0.
Proof.
  intros H1 H2 Hne Hletters.
  pose proof (parse_cluster flags1 flags2 letters H1 H2 Hne Hletters) as Hparse.
  split; [exact Hparse|].
  unfold main. rewrite Hparse. reflexivity.
Qed.


End ShortFlags.

Lemma short_flags_grouped_witness :
  logged_run 0 ["--release"; "-ci"] = logged_run 0 ["--release"; "-c"; "-i"].
Proof.
  destruct (short_flags_grouped (list string) (log_shell 0) ["--release"] []
              ["c"; "i"]%char []) as [_ H].
  - constructor; [cbn; tauto | constructor].
  - constructor.
  - discriminate.
  - repeat (constructor; [cbn; tauto|]). constructor.
  - exact H.
Defined.

